(** * WikiGenealogyScraper2: the family-graph front end

    A shallow embedding of the JavaScript that builds, classifies, lays out
    and decorates the family graph, together with the search form handler and
    the date helpers.  The modules of the first part hold the embedding:

    - [JsMap]         the insertion-ordered [Map] builtin used for deduplication
    - [GraphBuilder]  [loadPersonDetails], grouped payload (page script of the
                      details page)
    - [Flat]          the flattened [{nodes, links}] payload
    - [Dates]         the [formatDate] helpers
    - [JsArray]       [Array.prototype.sort]
    - [Relations]     [displayFamilyRelations] / [displayRelationSection]
                      of [static/js/details.js]
    - [Visualization] [initializeVisualization], [ticked] and the hover
                      handlers of [static/js/visualization.js], and the older
                      [ticked] of the network variant
    - [Search]        the submit handler of the search form
    - [Pagination]    [createPagination] of the two search scripts
    - [SearchResults] [performSearch] and [displaySearchResults]
    - [RelationList]  [displayRelationSection] of the details page script
    - [Drag]          the drag handlers and the simulation they are bound to
    - [Styling]       [getNodeColor] of the two visualizations
    - [Lifespan]      the years shown under a name

    The second part proves their properties, one [...Facts] module each. *)

From Stdlib Require Import List String Ascii Bool Arith ZArith QArith Qminmax Lia Lqa.
From Stdlib Require Import Permutation Sorted DecimalString.
Import ListNotations.

Local Open Scope string_scope.
Local Open Scope list_scope.

(** JavaScript's [Array.prototype.forEach] over a loop body that updates the
    variables it closes over: the captured state is threaded explicitly. *)
Definition forEach {A S : Type} (xs : list A) (body : S -> A -> S) (s : S) : S :=
  fold_left body xs s.

(* ------------------------------------------------------------------ *)
(** ** The [Map] builtin, keyed by strings *)

Module JsMap.
Section WithValue.
Context {V : Type}.

(** Entries in insertion order. *)
Definition t := list (string * V).

Definition empty : t := [].

(** [Map.prototype.set]: an existing key keeps its position and has its
    value replaced; a new key is appended. *)
Fixpoint set (k : string) (v : V) (m : t) : t :=
  match m with
  | [] => [(k, v)]
  | (k', v') :: m' =>
      if String.eqb k' k then (k', v) :: m' else (k', v') :: set k v m'
  end.

(** [new Map(iterable)]: entries are [set] one after the other. *)
Definition of_entries (es : list (string * V)) : t :=
  fold_left (fun m e => set (fst e) (snd e) m) es empty.

Definition keys (m : t) : list string := map fst m.

(** [Map.prototype.values], as an array. *)
Definition values (m : t) : list V := map snd m.

Fixpoint get (k : string) (m : t) : option V :=
  match m with
  | [] => None
  | (k', v) :: m' => if String.eqb k' k then Some v else get k m'
  end.
End WithValue.
Arguments t : clear implicits.

End JsMap.

(* ------------------------------------------------------------------ *)
(** ** Grouped payload: [loadPersonDetails] *)

Module GraphBuilder.

(** What the builder reads of a person of the payload. *)
Record PersonRef := { p_id : string; p_name : string }.

Record FamilyData := {
  parents : list PersonRef;
  children : list PersonRef;
  spouses : list PersonRef;
  siblings : list PersonRef
}.

Record Node := { id : string; name : string; type : string }.
Record Link := { source : string; target : string; ltype : string }.

Record NetworkData := { nodes : list Node; links : list Link }.

(** [networkData.nodes.push(n)] and [networkData.links.push(l)]. *)
Definition push_node (n : Node) (nd : NetworkData) : NetworkData :=
  {| nodes := nodes nd ++ [n]; links := links nd |}.
Definition push_link (l : Link) (nd : NetworkData) : NetworkData :=
  {| nodes := nodes nd; links := links nd ++ [l] |}.

Definition node_of (kind : string) (p : PersonRef) : Node :=
  {| id := p_id p; name := p_name p; type := kind |}.

Definition parent_step (entityId : string) (nd : NetworkData) (parent : PersonRef) :=
  push_link {| source := p_id parent; target := entityId; ltype := "parent" |}
    (push_node (node_of "parent" parent) nd).

Definition child_step (entityId : string) (nd : NetworkData) (child : PersonRef) :=
  push_link {| source := entityId; target := p_id child; ltype := "parent" |}
    (push_node (node_of "child" child) nd).

Definition spouse_step (entityId : string) (nd : NetworkData) (spouse : PersonRef) :=
  push_link {| source := entityId; target := p_id spouse; ltype := "spouse" |}
    (push_node (node_of "spouse" spouse) nd).

(** The inner loop over the parents: the state is the network under
    construction and the flag [linkedToParent]. *)
Definition sibling_parent_step (sibling : PersonRef)
    (st : NetworkData * bool) (parent : PersonRef) : NetworkData * bool :=
  (push_link {| source := p_id parent; target := p_id sibling; ltype := "parent" |}
     (fst st), true).

Definition sibling_step (entityId : string) (ps : list PersonRef)
    (nd : NetworkData) (sibling : PersonRef) : NetworkData :=
  let nd1 := push_node (node_of "sibling" sibling) nd in
  let '(nd2, linkedToParent) :=
    forEach ps (sibling_parent_step sibling) (nd1, false) in
  if negb linkedToParent
  then push_link {| source := entityId; target := p_id sibling; ltype := "sibling" |} nd2
  else nd2.

(** The network as the loops leave it, before the deduplication. *)
Definition collect (entityId personName : string) (fd : FamilyData) : NetworkData :=
  let nd0 := {| nodes := []; links := [] |} in
  let nd1 := push_node {| id := entityId; name := personName; type := "self" |} nd0 in
  let nd2 := forEach (parents fd) (parent_step entityId) nd1 in
  let nd3 := forEach (children fd) (child_step entityId) nd2 in
  let nd4 := forEach (spouses fd) (spouse_step entityId) nd3 in
  forEach (siblings fd) (sibling_step entityId (parents fd)) nd4.

(** [Array.from(new Map(nodes.map(node => [node.id, node])).values())] *)
Definition uniqueNodes (ns : list Node) : list Node :=
  JsMap.values (JsMap.of_entries (map (fun node => (id node, node)) ns)).

(** The value handed to [initializeVisualization]. *)
Definition networkData (entityId personName : string) (fd : FamilyData) : NetworkData :=
  let nd := collect entityId personName fd in
  {| nodes := uniqueNodes (nodes nd); links := links nd |}.

(** The links one sibling contributes: its iteration run on an empty network. *)
Definition sibling_links (entityId : string) (ps : list PersonRef) (s : PersonRef)
  : list Link :=
  links (sibling_step entityId ps {| nodes := []; links := [] |} s).

(** The links the loops are expected to push, named for the statements. *)
Definition parent_link (entityId : string) (p : PersonRef) : Link :=
  {| source := p_id p; target := entityId; ltype := "parent" |}.
Definition child_link (entityId : string) (p : PersonRef) : Link :=
  {| source := entityId; target := p_id p; ltype := "parent" |}.
Definition spouse_link (entityId : string) (p : PersonRef) : Link :=
  {| source := entityId; target := p_id p; ltype := "spouse" |}.
Definition shared_parent_link (s p : PersonRef) : Link :=
  {| source := p_id p; target := p_id s; ltype := "parent" |}.
Definition direct_sibling_link (entityId : string) (s : PersonRef) : Link :=
  {| source := entityId; target := p_id s; ltype := "sibling" |}.

(** A grouped payload for the examples: Elizabeth II. *)
Definition windsor : FamilyData :=
  {| parents := [ {| p_id := "Q1"; p_name := "George VI" |} ];
     children := [];
     spouses := [ {| p_id := "Q2"; p_name := "Philip" |} ];
     siblings := [ {| p_id := "Q3"; p_name := "Margaret" |} ] |}.

End GraphBuilder.

(* ------------------------------------------------------------------ *)
(** ** Flattened payload: the [{nodes, links}] form of [/api/family] *)

Module Flat.

Record GraphNode := {
  id : string;
  name : option string;
  depth : Z;
  birth_date : option string;
  death_date : option string;
  bio : option string
}.

Record RelationEdge := { source : string; target : string; type : string }.

Record Payload := { nodes : list GraphNode; links : list RelationEdge }.

(** [nodes.find(node => node.id === i)] *)
Definition find_by_id (i : string) (ns : list GraphNode) : option GraphNode :=
  find (fun node => String.eqb (id node) i) ns.

(** Truthiness of an optional string field: [undefined], [null] and the
    empty string are falsy. *)
Definition truthy (v : option string) : bool :=
  match v with
  | Some s => negb (String.eqb s "")
  | None => false
  end.

Definition person (i : string) (d : Z) (born : option string) : GraphNode :=
  {| id := i; name := Some i; depth := d; birth_date := born;
     death_date := None; bio := None |}.

(** A flattened payload for the examples. *)
Definition elizabeth := person "Q9682" 0 (Some "1926").
Definition george := person "Q1" 1 (Some "1895").
Definition philip := person "Q2" 1 (Some "1921").
Definition margaret := person "Q3" 1 (Some "1930").
Definition charles := person "Q43274" 1 (Some "1948").

Definition windsor_graph : Payload :=
  {| nodes := [elizabeth; george; philip; margaret; charles];
     links := [ {| source := "Q1"; target := "Q9682"; type := "parent" |};
                {| source := "Q9682"; target := "Q43274"; type := "parent" |};
                {| source := "Q9682"; target := "Q2"; type := "spouse" |};
                {| source := "Q3"; target := "Q9682"; type := "sibling" |};
                {| source := "Q1"; target := "Q3"; type := "parent" |} ] |}.

(** A payload whose only link names a node that is not there. *)
Definition dangling_graph : Payload :=
  {| nodes := [elizabeth];
     links := [ {| source := "Q9682"; target := "Q404"; type := "parent" |} ] |}.

End Flat.

(* ------------------------------------------------------------------ *)
(** ** Dates: [Date] parsing is the engine's; the helpers are the repository's *)

Module Dates.

(** ECMAScript's [DayFromYear] and [TimeFromYear] (milliseconds, UTC). *)
Definition DayFromYear (y : Z) : Z :=
  (365 * (y - 1970) + (y - 1969) / 4 - (y - 1901) / 100 + (y - 1601) / 400)%Z.
Definition TimeFromYear (y : Z) : Z := (86400000 * DayFromYear y)%Z.

(** ECMAScript's [YearFromTime]: the largest year starting at or before [t]. *)
Definition YearFromTime (t : Z) : Z :=
  let y0 := (1970 + t / 31556952000)%Z in
  if (TimeFromYear (y0 + 1) <=? t)%Z then (y0 + 1)%Z
  else if (TimeFromYear y0 <=? t)%Z then y0
  else (y0 - 1)%Z.

Definition is_digit (c : ascii) : bool :=
  let n := nat_of_ascii c in (48 <=? n)%nat && (n <=? 57)%nat.

Definition digit_value (c : ascii) : Z := Z.of_nat (nat_of_ascii c - 48).

(** The year-only form [YYYY] of the ECMAScript date-time string format,
    read as midnight UTC of January 1st; every other string is rejected.
    It stands in for [Date.parse] in the examples: engines accept more
    strings, and agree with it on the ones used below. *)
Definition year_only_parse (s : string) : option Z :=
  match s with
  | String a (String b (String c (String d EmptyString))) =>
      if is_digit a && is_digit b && is_digit c && is_digit d
      then Some (TimeFromYear
                   (1000 * digit_value a + 100 * digit_value b
                    + 10 * digit_value c + digit_value d))
      else None
  | _ => None
  end.

(** [Number.prototype.toString] on an integer. *)
Definition Number_toString (z : Z) : string :=
  DecimalString.NilZero.string_of_int (Z.to_int z).

(** Four decimal digits at the head of [s]: the group [(\d{4})]. *)
Definition four_digits (s : string) : option string :=
  match s with
  | String a (String b (String c (String d _))) =>
      if is_digit a && is_digit b && is_digit c && is_digit d
      then Some (String a (String b (String c (String d EmptyString))))
      else None
  | _ => None
  end.

Definition is_sign (c : ascii) : bool :=
  Ascii.eqb c "+"%char || Ascii.eqb c "-"%char.

(** [/[+-]?(\d{4})/] tried at the head of [s]: the optional sign is taken
    when it is there, and given back when no four digits follow it. *)
Definition match_here (s : string) : option string :=
  match s with
  | String c rest =>
      if is_sign c
      then match four_digits rest with
           | Some y => Some y
           | None => four_digits s
           end
      else four_digits s
  | EmptyString => None
  end.

(** [dateString.match(/[+-]?(\d{4})/)], group 1 of the leftmost match. *)
Fixpoint yearMatch (s : string) : option string :=
  match match_here s with
  | Some y => Some y
  | None =>
      match s with
      | EmptyString => None
      | String _ rest => yearMatch rest
      end
  end.

Section Engine.
(** [new Date(s).getTime()]: [None] is [NaN], an invalid date. *)
Variable Date_parse : string -> option Z.
(** [getFullYear] and [toLocaleDateString('en-US', ...)] of a valid date;
    both read the time value in the browser's time zone. *)
Variable getFullYear : Z -> Z.
Variable toLocaleDateString : Z -> string.



(** [formatDate] of the network variant of the visualization. *)
Definition formatDate_network (dateString : option string) : string :=
  match dateString with
  | None => ""
  | Some s =>
      if String.eqb s "" then ""
      else match Date_parse s with
           | None =>
               match yearMatch s with
               | Some y => y
               | None => ""
               end
           | Some t => Number_toString (getFullYear t)
           end
  end.
End Engine.

End Dates.
(* ------------------------------------------------------------------ *)
(** ** [Array.prototype.sort] *)

Module JsArray.

(** A JavaScript number as a comparator returns it: an integer or [NaN]. *)
Definition Number := option Z.

Section Sort.
Context {A : Type}.
Variable comparefn : A -> A -> Number.

(** The order the sort acts on: the number [comparefn(x, y)] returns,
    [NaN] taken as 0. *)
Definition Compare (x y : A) : Z :=
  match comparefn x y with
  | Some v => v
  | None => 0%Z
  end.

(** The loop that extends the run found at the start of the array: the
    elements after [previousElement] that go on the run, and the elements
    left.  A descending run ends at the first [order >= 0], an ascending
    one at the first [order < 0]. *)
Fixpoint extend_run (isDescending : bool) (previousElement : A) (a : list A)
  : list A * list A :=
  match a with
  | [] => ([], [])
  | currentElement :: rest =>
      let order := Compare currentElement previousElement in
      if (if isDescending then (0 <=? order)%Z else (order <? 0)%Z)
      then ([], a)
      else
        let '(run, remaining) := extend_run isDescending currentElement rest in
        (currentElement :: run, remaining)
  end.

(** The run the array starts with, made ascending (a descending run is
    reversed), and the elements after it. *)
Definition CountAndMakeRun (a : list A) : list A * list A :=
  match a with
  | elementHigh :: elementLow :: rest =>
      let isDescending := (Compare elementLow elementHigh <? 0)%Z in
      let '(run, remaining) := extend_run isDescending elementLow rest in
      let whole := elementHigh :: elementLow :: run in
      (if isDescending then rev whole else whole, remaining)
  | _ => (a, [])
  end.

(** The binary search for the place of [pivot] in the sorted part:
    [while (left < right)] with [mid = left + ((right - left) >> 1)] and
    [order = Compare(pivot, a[mid])]; [order < 0] moves [right], anything
    else moves [left].  [fuel] bounds the iterations; [right - left] of
    them are enough. *)
Fixpoint search (fuel : nat) (pivot : A) (a : list A) (left right : nat) : nat :=
  match fuel with
  | O => left
  | S fuel' =>
      if (left <? right)%nat then
        let mid := (left + (right - left) / 2)%nat in
        if (Compare pivot (nth mid a pivot) <? 0)%Z
        then search fuel' pivot a left mid
        else search fuel' pivot a (mid + 1) right
      else left
  end.

(** [pivot] put at index [left], the elements from there on moved up. *)
Definition insert_at (left : nat) (pivot : A) (a : list A) : list A :=
  firstn left a ++ pivot :: skipn left a.

(** The elements after the run inserted one by one into the sorted part. *)
Definition BinaryInsertionSort (run rest : list A) : list A :=
  fold_left
    (fun sorted pivot =>
       insert_at (search (List.length sorted) pivot sorted 0 (List.length sorted))
         pivot sorted)
    rest run.

(** [a.sort(comparefn)].  The algorithm is the engine's; the comparator
    of [displayRelationSection] is not a consistent one in ECMAScript's
    sense, so the standard leaves the order to the engine.  It is V8's
    for an array of fewer than 64 elements: such an array is one run, the
    run the array starts with being extended to the whole array by
    binary insertion, and nothing is merged. *)
Definition sort (a : list A) : list A :=
  let '(run, rest) := CountAndMakeRun a in BinaryInsertionSort run rest.
End Sort.

End JsArray.

(* ------------------------------------------------------------------ *)
(** ** [static/js/details.js]: relation buckets and relation cards *)

Module Relations.
Import Flat.

Record Buckets := {
  r_parents : list GraphNode;
  r_children : list GraphNode;
  r_spouses : list GraphNode;
  r_siblings : list GraphNode
}.

Definition no_relations : Buckets :=
  {| r_parents := []; r_children := []; r_spouses := []; r_siblings := [] |}.

Definition push_parent (p : GraphNode) (r : Buckets) : Buckets :=
  {| r_parents := r_parents r ++ [p]; r_children := r_children r;
     r_spouses := r_spouses r; r_siblings := r_siblings r |}.
Definition push_child (p : GraphNode) (r : Buckets) : Buckets :=
  {| r_parents := r_parents r; r_children := r_children r ++ [p];
     r_spouses := r_spouses r; r_siblings := r_siblings r |}.
Definition push_spouse (p : GraphNode) (r : Buckets) : Buckets :=
  {| r_parents := r_parents r; r_children := r_children r;
     r_spouses := r_spouses r ++ [p]; r_siblings := r_siblings r |}.
Definition push_sibling (p : GraphNode) (r : Buckets) : Buckets :=
  {| r_parents := r_parents r; r_children := r_children r;
     r_spouses := r_spouses r; r_siblings := r_siblings r ++ [p] |}.

(** The body of [familyData.links.forEach(link => ...)]. *)
Definition classify_link (ns : list GraphNode) (centralPerson : GraphNode)
    (relations : Buckets) (link : RelationEdge) : Buckets :=
  if negb (String.eqb (source link) (id centralPerson))
     && negb (String.eqb (target link) (id centralPerson))
  then relations
  else
    let relationType := type link in
    let relatedId :=
      if String.eqb (source link) (id centralPerson)
      then target link else source link in
    match find_by_id relatedId ns with
    | None => relations
    | Some relatedPerson =>
        if String.eqb relationType "parent" then
          if String.eqb (target link) (id centralPerson)
          then push_parent relatedPerson relations
          else push_child relatedPerson relations
        else if String.eqb relationType "spouse" then
          push_spouse relatedPerson relations
        else if String.eqb relationType "sibling" then
          push_sibling relatedPerson relations
        else relations
    end.

(** [familyData.nodes.find(node => node.depth === 0)] *)
Definition centralPerson (familyData : Payload) : option GraphNode :=
  find (fun node => (depth node =? 0)%Z) (nodes familyData).

(** The grouping pass of [displayFamilyRelations]; [None] when the
    function returns before grouping, for want of a central person. *)
Definition group_relations (familyData : Payload) : option Buckets :=
  match centralPerson familyData with
  | None => None
  | Some c =>
      Some (forEach (links familyData) (classify_link (nodes familyData) c)
              no_relations)
  end.

(** What a section container shows. *)
Inductive Container :=
| EmptyState (iconClass message : string)
| Cards (relations : list GraphNode).

Definition empty_state (relationType : string) : Container :=
  if String.eqb relationType "parent" then
    EmptyState "fas fa-user-friends" "No parents found in the data"
  else if String.eqb relationType "child" then
    EmptyState "fas fa-child" "No children found in the data"
  else if String.eqb relationType "spouse" then
    EmptyState "fas fa-heart" "No spouses found in the data"
  else if String.eqb relationType "sibling" then
    EmptyState "fas fa-users" "No siblings found in the data"
  else EmptyState "fas fa-question" "No information available".

Section Engine.
Variable Date_parse : string -> option Z.

(** [new Date(a) - new Date(b)]: [NaN] as soon as one date is invalid. *)
Definition date_difference (a b : string) : JsArray.Number :=
  match Date_parse a, Date_parse b with
  | Some ta, Some tb => Some (ta - tb)%Z
  | _, _ => None
  end.

Definition field (v : option string) : string :=
  match v with Some s => s | None => "" end.

(** The comparator of [relations.sort]. *)
Definition by_birth_date (a b : GraphNode) : JsArray.Number :=
  if negb (truthy (birth_date a)) then Some 1%Z
  else if negb (truthy (birth_date b)) then Some (-1)%Z
  else date_difference (field (birth_date a)) (field (birth_date b)).

(** [displayRelationSection]: the cards are listed in the order they are
    appended to the container. *)
Definition displayRelationSection (relations : list GraphNode)
    (relationType : string) : Container :=
  match relations with
  | [] => empty_state relationType
  | _ => Cards (JsArray.sort by_birth_date relations)
  end.

Record Page := {
  parentsContainer : Container;
  childrenContainer : Container;
  spousesContainer : Container;
  siblingsContainer : Container
}.

(** [displayFamilyRelations]: the page is left as it was ([None]) when
    no node has depth 0. *)
Definition displayFamilyRelations (familyData : Payload) : option Page :=
  match group_relations familyData with
  | None => None
  | Some relations =>
      Some {| parentsContainer := displayRelationSection (r_parents relations) "parent";
              childrenContainer := displayRelationSection (r_children relations) "child";
              spousesContainer := displayRelationSection (r_spouses relations) "spouse";
              siblingsContainer := displayRelationSection (r_siblings relations) "sibling" |}
  end.

(** The time value a card is ordered by, when it has one. *)
Definition birth_time (r : GraphNode) : option Z :=
  if truthy (birth_date r) then Date_parse (field (birth_date r)) else None.

(** [a] may stand before [b]: a relation without a birth date stands
    before no relation that has one. *)
Definition undated_last (a b : GraphNode) : Prop :=
  truthy (birth_date b) = true -> truthy (birth_date a) = true.

(** [a] may stand before [b]: two parsed birth dates are in ascending
    order. *)
Definition ascending (a b : GraphNode) : Prop :=
  forall ta tb, birth_time a = Some ta -> birth_time b = Some tb -> (ta <= tb)%Z.

(** Every birth date that is there parses. *)
Definition parses (r : GraphNode) : Prop :=
  truthy (birth_date r) = true -> birth_time r <> None.
End Engine.

End Relations.
(* ------------------------------------------------------------------ *)
(** ** [static/js/visualization.js] *)

Module Visualization.
Import Flat.

(** A node object once the simulation has given it a position. *)
Record Datum := { node : GraphNode; x : Q; y : Q }.

(** A link of the visualization.  Its ends are the node objects themselves
    ([nodes.find(...)]), shared with the node array: an end is held as the
    index of that object in the array, and is [None] when [find] gave
    [undefined]. *)
Record VLink := { source : option nat; target : option nat; type : string }.

(** Index of the first node [nodes.find(node => node.id === i)] returns. *)
Fixpoint find_index (i : string) (ns : list GraphNode) : option nat :=
  match ns with
  | [] => None
  | n :: rest =>
      if String.eqb (id n) i then Some O
      else option_map S (find_index i rest)
  end.

(** [data.links.map(link => ({source, target, type: link.type}))] *)
Definition resolve_links (data : Payload) : list VLink :=
  map (fun link =>
         {| source := find_index (Flat.source link) (nodes data);
            target := find_index (Flat.target link) (nodes data);
            type := Flat.type link |})
      (links data).

(** Reading a property of an end of a link: [None] is the [TypeError] of
    a property read on [undefined]. *)
Definition deref (ds : list Datum) (e : option nat) : option Datum :=
  match e with
  | Some i => nth_error ds i
  | None => None
  end.

Fixpoint traverse {A B : Type} (f : A -> option B) (l : list A) : option (list B) :=
  match l with
  | [] => Some []
  | a :: rest =>
      match f a with
      | None => None
      | Some b =>
          match traverse f rest with
          | None => None
          | Some bs => Some (b :: bs)
          end
      end
  end.

Record Line := { x1 : Q; y1 : Q; x2 : Q; y2 : Q }.

Definition line_of (ds : list Datum) (l : VLink) : option Line :=
  match deref ds (source l), deref ds (target l) with
  | Some s, Some t => Some {| x1 := x s; y1 := y s; x2 := x t; y2 := y t |}
  | _, _ => None
  end.

(** [Math.max(20, Math.min(extent - 20, v))] *)
Definition clamp (extent v : Q) : Q := Qmax 20 (Qmin (extent - 20) v).

Definition clamp_datum (width height : Q) (d : Datum) : Datum :=
  {| node := node d; x := clamp width (x d); y := clamp height (y d) |}.

(** One frame: the attributes set by a call of [ticked], and the node
    array as the call leaves it. *)
Record Frame := {
  lines : list Line;            (* x1, y1, x2, y2 of each line *)
  circles : list (Q * Q);       (* cx, cy of each circle *)
  labels : list (Q * Q);        (* x, y of each label *)
  data_after : list Datum
}.

(** [ticked]: the lines are drawn from the positions the tick begins
    with, then every node is clamped and drawn, then the labels follow the
    clamped positions.  [None] when a property read on [undefined] throws
    out of the function. *)
Definition ticked (width height : Q) (ls : list VLink) (ds : list Datum)
  : option Frame :=
  match traverse (line_of ds) ls with
  | None => None
  | Some drawn =>
      let ds' := map (clamp_datum width height) ds in
      Some {| lines := drawn;
              circles := map (fun d => (x d, y d)) ds';
              labels := map (fun d => (x d, y d)) ds';
              data_after := ds' |}
  end.

(** [ticked] of the network variant: [translate(d.x, d.y)] for each node
    group; the node array is left as it is. *)
Record Frame_network := {
  n_lines : list Line;
  n_translate : list (Q * Q)
}.

Definition ticked_network (ls : list VLink) (ds : list Datum)
  : option Frame_network :=
  match traverse (line_of ds) ls with
  | None => None
  | Some drawn =>
      Some {| n_lines := drawn; n_translate := map (fun d => (x d, y d)) ds |}
  end.

(** [(l.source.id === d.id || l.target.id === d.id) ? 1 : 0.2] *)
Definition hover_opacity (ds : list Datum) (d : GraphNode) (l : VLink) : option Q :=
  match deref ds (source l) with
  | None => None
  | Some s =>
      if String.eqb (id (node s)) (id d) then Some 1
      else match deref ds (target l) with
           | None => None
           | Some t =>
               if String.eqb (id (node t)) (id d) then Some 1 else Some (2 # 10)
           end
  end.

(** The [stroke-opacity] of every line after [mouseover] on [d]. *)
Definition mouseover (ds : list Datum) (ls : list VLink) (d : GraphNode)
  : option (list Q) :=
  traverse (hover_opacity ds d) ls.

(** The [stroke-opacity] of every line after [mouseout]. *)
Definition mouseout (ls : list VLink) : list Q := map (fun _ => 1) ls.

(** [d] is an end of [l]. *)
Definition touches (ds : list Datum) (l : VLink) (d : GraphNode) : Prop :=
  (exists s, deref ds (source l) = Some s /\ id (node s) = id d) \/
  (exists t, deref ds (target l) = Some t /\ id (node t) = id d).

(** Both ends of [l] are node objects of [ds]. *)
Definition resolved (ds : list Datum) (l : VLink) : Prop :=
  deref ds (source l) <> None /\ deref ds (target l) <> None.

(** A position inside the surface less the margin. *)
Definition inside (width height : Q) (p : Q * Q) : Prop :=
  20 <= fst p /\ fst p <= width - 20 /\ 20 <= snd p /\ snd p <= height - 20.

(** The node array as [d3.forceSimulation] holds it, each node at the
    position [place] assigns. *)
Definition placed (place : GraphNode -> Q * Q) (data : Payload) : list Datum :=
  map (fun n => {| node := n; x := fst (place n); y := snd (place n) |}) (nodes data).

End Visualization.

(* ------------------------------------------------------------------ *)
(** ** The search form *)

Module Search.

(** White space and line terminators of ECMAScript among the code units
    below 256, which is what a string of this development holds. *)
Definition is_white_space (c : ascii) : bool :=
  let n := nat_of_ascii c in
  ((9 <=? n)%nat && (n <=? 13)%nat) || (n =? 32)%nat || (n =? 160)%nat.

Fixpoint trimStart (s : string) : string :=
  match s with
  | String c rest => if is_white_space c then trimStart rest else s
  | EmptyString => EmptyString
  end.

Fixpoint trimEnd (s : string) : string :=
  match s with
  | String c rest =>
      match trimEnd rest with
      | EmptyString => if is_white_space c then EmptyString else String c EmptyString
      | kept => String c kept
      end
  | EmptyString => EmptyString
  end.

(** [String.prototype.trim] *)
Definition trim (s : string) : string := trimEnd (trimStart s).

(** Nothing but white space. *)
Fixpoint blank (s : string) : bool :=
  match s with
  | String c rest => is_white_space c && blank rest
  | EmptyString => true
  end.

(** What a handler does to the world, in order. *)
Inductive Effect :=
| PreventDefault
| PreparePage                        (* loading indicator on, old results off *)
| Fetch (url : string)
| PushState (url : string)
| PushQueryParam (query : string).   (* the current URL, [query] parameter set *)

Definition is_fetch (e : Effect) : bool :=
  match e with Fetch _ => true | _ => false end.

Record State := { currentQuery : string; currentPage : nat }.

Definition show_page (page : nat) : string :=
  NilEmpty.string_of_uint (Nat.to_uint page).

Section Browser.
Variable encodeURIComponent : string -> string.
(** [url_for('search_page')], filled in by the template. *)
Variable search_page : string.

Definition apiUrl (query : string) (page : nat) : string :=
  "/api/search?query=" ++ encodeURIComponent query ++ "&page=" ++ show_page page.

(** [performSearch], up to the request: both versions prepare the page
    and issue one [fetch]. *)
Definition performSearch (query : string) (page : nat) : list Effect :=
  [PreparePage; Fetch (apiUrl query page)].

(** The [submit] listener of [search-form]. *)
Definition submit (value : string) (st : State) : State * list Effect :=
  let query := trim value in
  if negb (String.eqb query "") then
    ({| currentQuery := query; currentPage := 1 |},
     [PreventDefault] ++ performSearch query 1 ++ [PushQueryParam query])
  else (st, [PreventDefault]).

(** The [submit] handler of [#searchForm] in [templates/search.html]. *)
Definition submit_template (value : string) : list Effect :=
  let query := trim value in
  if negb (String.eqb query "") then
    [PreventDefault; PushState (search_page ++ "?query=" ++ encodeURIComponent query)]
      ++ performSearch query 1
  else [PreventDefault].
End Browser.

End Search.
(* ------------------------------------------------------------------ *)
(** ** Pagination of the search results *)

Module Pagination.

Inductive Label :=
| LPrevious
| LNext
| LNumber (page : Z)
| LEllipsis.

Inductive Class := Plain | Active | Disabled.

(** One [li] of the pagination: what it shows, its class, and the page its
    click listener asks [performSearch] for, when it is given a listener. *)
Record Item := { label : Label; class : Class; target : option Z }.

(** The values of [i] in [for (let i = first; i <= last; i++)]. *)
Definition pages_from_to (first last : Z) : list Z :=
  map (fun k => (first + Z.of_nat k)%Z) (seq 0 (Z.to_nat (last - first + 1))).

Definition maxVisiblePages : Z := 5.

(** [startPage] and [endPage] of [createPagination] in the search script,
    after the adjustment near the end. *)
Definition window (currentPage totalPages : Z) : Z * Z :=
  let startPage := Z.max 1 (currentPage - maxVisiblePages / 2) in
  let endPage := Z.min totalPages (startPage + maxVisiblePages - 1) in
  let startPage :=
    if (endPage - startPage + 1 <? maxVisiblePages)%Z
    then Z.max 1 (endPage - maxVisiblePages + 1)
    else startPage in
  (startPage, endPage).

Definition ellipsis : Item :=
  {| label := LEllipsis; class := Disabled; target := None |}.

Definition page_item (currentPage i : Z) : Item :=
  {| label := LNumber i;
     class := if (i =? currentPage)%Z then Active else Plain;
     target := if (i =? currentPage)%Z then None else Some i |}.

(** [createPagination(currentPage, totalPages)] of the search script: the
    children of the pagination list, in order. *)
Definition createPagination (currentPage totalPages : Z) : list Item :=
  if (totalPages <=? 1)%Z then []
  else
    let '(startPage, endPage) := window currentPage totalPages in
    [ {| label := LPrevious;
         class := if (currentPage =? 1)%Z then Disabled else Plain;
         target := if (1 <? currentPage)%Z then Some (currentPage - 1)%Z else None |} ]
    ++ (if (1 <? startPage)%Z
        then {| label := LNumber 1; class := Plain; target := Some 1%Z |}
             :: (if (2 <? startPage)%Z then [ellipsis] else [])
        else [])
    ++ map (page_item currentPage) (pages_from_to startPage endPage)
    ++ (if (endPage <? totalPages)%Z
        then (if (endPage <? totalPages - 1)%Z then [ellipsis] else [])
             ++ [ {| label := LNumber totalPages; class := Plain;
                     target := Some totalPages |} ]
        else [])
    ++ [ {| label := LNext;
            class := if (currentPage =? totalPages)%Z then Disabled else Plain;
            target := if (currentPage <? totalPages)%Z
                      then Some (currentPage + 1)%Z else None |} ].

(** The page numbers an item list shows, left to right. *)
Definition numbers (items : list Item) : list Z :=
  flat_map (fun it => match label it with LNumber i => [i] | _ => [] end) items.

(** The pages the listeners of an item list can ask for. *)
Definition targets (items : list Item) : list Z :=
  flat_map (fun it => match target it with Some i => [i] | None => [] end) items.

(** [startPage] and [endPage] of the older [createPagination], which has
    no adjustment near the end. *)
Definition window_old (currentPage totalPages : Z) : Z * Z :=
  let startPage := Z.max 1 (currentPage - 2) in
  let endPage := Z.min totalPages (startPage + 4) in
  (startPage, endPage).

(** An item of the older pagination: a link with an [href]; [None] is the
    inert [#]. *)
Record Item_old := { o_label : Label; o_class : Class; o_href : option string }.

Section Browser.
Variable encodeURIComponent : string -> string.

Definition page_href (query : string) (page : Z) : string :=
  ("/search?query=" ++ encodeURIComponent query ++ "&page="
     ++ DecimalString.NilZero.string_of_int (Z.to_int page))%string.

(** The older [createPagination(currentPage, totalPages, query)]. *)
Definition createPagination_old (currentPage totalPages : Z) (query : string)
  : list Item_old :=
  let '(startPage, endPage) := window_old currentPage totalPages in
  [ if (1 <? currentPage)%Z
    then {| o_label := LPrevious; o_class := Plain;
            o_href := Some (page_href query (currentPage - 1)) |}
    else {| o_label := LPrevious; o_class := Disabled; o_href := None |} ]
  ++ map (fun i =>
            if (i =? currentPage)%Z
            then {| o_label := LNumber i; o_class := Active; o_href := None |}
            else {| o_label := LNumber i; o_class := Plain;
                    o_href := Some (page_href query i) |})
         (pages_from_to startPage endPage)
  ++ [ if (currentPage <? totalPages)%Z
       then {| o_label := LNext; o_class := Plain;
               o_href := Some (page_href query (currentPage + 1)) |}
       else {| o_label := LNext; o_class := Disabled; o_href := None |} ].
End Browser.

Definition numbers_old (items : list Item_old) : list Z :=
  flat_map (fun it => match o_label it with LNumber i => [i] | _ => [] end) items.

End Pagination.

(* ------------------------------------------------------------------ *)
(** ** The search script: a response and what the page shows of it *)

Module SearchResults.

Record Hit := { h_id : string; h_name : option string; h_description : option string }.

(** The body of a search response; a field is [None] when it is absent. *)
Record Data := { results : option (list Hit); total : option Z; page : option Z }.

Record State := { currentQuery : string; currentPage : Z; totalResults : Z }.

Definition resultsPerPage : Z := 10.

(** [v || d] on a number that may be absent: [undefined] and [0] are falsy. *)
Definition or_number (v : option Z) (d : Z) : Z :=
  match v with
  | Some z => if (z =? 0)%Z then d else z
  | None => d
  end.

(** [Math.ceil(a / b)] on integers, [b] positive. *)
Definition ceil_div (a b : Z) : Z := (- ((- a) / b))%Z.

(** What the search page shows. *)
Record View := {
  loadingShown : bool;
  resultsShown : bool;           (* results-container *)
  noResultsShown : bool;         (* no-results *)
  errorShown : option string;    (* error-message and its text *)
  heading : string * Z;          (* the query and the count the heading names *)
  cards : list Hit;              (* children of results-list *)
  pagination : list Pagination.Item
}.

(** The synchronous part of [performSearch]. *)
Definition performSearch_start (v : View) : View :=
  {| loadingShown := true; resultsShown := false; noResultsShown := false;
     errorShown := None; heading := heading v; cards := cards v;
     pagination := pagination v |}.

(** [displaySearchResults(data)], reading the search state. *)
Definition displaySearchResults (st : State) (data : Data) (v : View) : View :=
  let hits := match results data with Some l => l | None => [] end in
  match hits with
  | [] =>
      {| loadingShown := loadingShown v; resultsShown := resultsShown v;
         noResultsShown := true; errorShown := errorShown v;
         heading := heading v; cards := []; pagination := pagination v |}
  | _ =>
      {| loadingShown := loadingShown v; resultsShown := true;
         noResultsShown := noResultsShown v; errorShown := errorShown v;
         heading := (currentQuery st, totalResults st);
         cards := hits;
         pagination :=
           Pagination.createPagination (currentPage st)
             (ceil_div (totalResults st) resultsPerPage) |}
  end.

(** How the request of [performSearch] ends: a rejected fetch, a response
    that is not [ok] or a body that is not JSON, each with the message of
    its error; or a body. *)
Inductive Outcome :=
| Failed (message : string)
| Succeeded (data : Data).

Definition hide_loading (v : View) : View :=
  {| loadingShown := false; resultsShown := resultsShown v;
     noResultsShown := noResultsShown v; errorShown := errorShown v;
     heading := heading v; cards := cards v; pagination := pagination v |}.

(** [performSearch] from the call to the end of its promise chain. *)
Definition performSearch (st : State) (v : View) (o : Outcome) : State * View :=
  let v1 := performSearch_start v in
  match o with
  | Succeeded data =>
      let st' := {| currentQuery := currentQuery st;
                    currentPage := or_number (page data) 1;
                    totalResults := or_number (total data) 0 |} in
      (st', hide_loading (displaySearchResults st' data v1))
  | Failed message =>
      (st, hide_loading
             {| loadingShown := loadingShown v1; resultsShown := resultsShown v1;
                noResultsShown := noResultsShown v1;
                errorShown := Some ("Error searching: " ++ message)%string;
                heading := heading v1; cards := cards v1;
                pagination := pagination v1 |})
  end.

End SearchResults.

(* ------------------------------------------------------------------ *)
(** ** The details page script: the list of a relation section *)

Module RelationList.

(** What a section reads of a person of the grouped payload. *)
Record Person := {
  id : string;
  name : option string;
  image_url : option string;
  birth_date : option string;
  death_date : option string
}.

(** A person card: the id in its link [/details/<id>], the source of its
    image ([None] is the placeholder), the escaped name, and the two dates
    of the line under it. *)
Record Card := {
  c_id : string;
  c_image : option string;
  c_name : string;
  c_born : string;
  c_died : string
}.

Inductive Container :=
| Message (text : string)
| CardList (cards : list Card).

(** [displayedPeople.has(k)] *)
Definition has (k : string) (m : JsMap.t bool) : bool :=
  match JsMap.get k m with Some _ => true | None => false end.

Section Engine.
Variable escapeHtml : option string -> string.
Variable Date_parse : string -> option Z.
Variable toLocaleDateString : Z -> string.

(** [formatDate] of the details page script. *)
Definition formatDate (dateString : option string) : string :=
  match dateString with
  | None => ""
  | Some s =>
      if String.eqb s "" then ""
      else match Date_parse s with
           | None => s
           | Some t => toLocaleDateString t
           end
  end.

Definition card_of (relationType : string) (person : Person) : Card :=
  {| c_id := id person;
     c_image := if Flat.truthy (image_url person) then image_url person else None;
     c_name := escapeHtml (name person);
     c_born := if Flat.truthy (birth_date person)
               then formatDate (birth_date person) else "?";
     c_died := if Flat.truthy (death_date person)
               then formatDate (death_date person)
               else if String.eqb relationType "parent"
                       || String.eqb relationType "spouse"
                    then "?" else "" |}.

(** The body of [relations.forEach]: the state is [displayedPeople] and
    the cards appended to [html] so far. *)
Definition card_step (relationType : string)
    (st : JsMap.t bool * list Card) (person : Person) : JsMap.t bool * list Card :=
  let '(displayedPeople, html) := st in
  if has (id person) displayedPeople then st
  else (JsMap.set (id person) true displayedPeople,
        html ++ [card_of relationType person]).

(** [displayRelationSection]; [relations] is [None] when the payload has
    no such array. *)
Definition displayRelationSection (relations : option (list Person))
    (relationType : string) : Container :=
  match relations with
  | None | Some [] => Message ("No " ++ relationType ++ "s found.")%string
  | Some l => CardList (snd (forEach l (card_step relationType) (JsMap.empty, [])))
  end.
End Engine.

End RelationList.

(* ------------------------------------------------------------------ *)
(** ** Dragging a node *)

Module Drag.

(** The node under the pointer: its position and its pin. *)
Record Subject := { x : Q; y : Q; fx : option Q; fy : option Q }.

(** What the handlers can do to a simulation: set the alpha target,
    restart it. *)
Record Simulation := { alphaTarget : Q; restarts : nat }.

(** [event.active], [event.x], [event.y]. *)
Record DragEvent := { active : nat; ex : Q; ey : Q }.

(** A handler call: the simulation the handler was bound to ([None] is
    [undefined]), and the subject.  The result is [None] when the call
    throws; nothing has been written then. *)
Definition dragstarted (simulation : option Simulation) (event : DragEvent)
    (subject : Subject) : option (option Simulation * Subject) :=
  let pinned := {| x := x subject; y := y subject;
                   fx := Some (x subject); fy := Some (y subject) |} in
  if (active event =? 0)%nat then
    match simulation with
    | None => None
    | Some s =>
        Some (Some {| alphaTarget := 3 # 10; restarts := S (restarts s) |}, pinned)
    end
  else Some (simulation, pinned).

Definition dragged (simulation : option Simulation) (event : DragEvent)
    (subject : Subject) : option (option Simulation * Subject) :=
  Some (simulation,
        {| x := x subject; y := y subject;
           fx := Some (ex event); fy := Some (ey event) |}).

Definition dragended (simulation : option Simulation) (event : DragEvent)
    (subject : Subject) : option (option Simulation * Subject) :=
  let released := {| x := x subject; y := y subject; fx := None; fy := None |} in
  if (active event =? 0)%nat then
    match simulation with
    | None => None
    | Some s =>
        Some (Some {| alphaTarget := 0; restarts := restarts s |}, released)
    end
  else Some (simulation, released).

(** The simulation [drag(simulation)] receives.  In [visualization.js] the
    call stands before the assignment of the page-wide [simulation], so it
    receives the value the variable had when [initializeVisualization] was
    entered. *)
Definition bound_simulation_visualization (global_at_entry : option Simulation)
    (created : Simulation) : option Simulation := global_at_entry.

(** The page-wide [simulation] when [initializeVisualization] returns. *)
Definition global_at_exit (global_at_entry : option Simulation)
    (created : Simulation) : option Simulation := Some created.

(** Between two handler calls the simulation runs.  It owns [x] and [y]: a
    tick puts a pinned node on its pin and a free one where the forces take
    it, and [ticked] clamps what it finds; it never writes the pin.  The
    subject as the next handler finds it, the simulation having left it at
    [position]: *)
Definition at_position (position : Q * Q) (subject : Subject) : Subject :=
  {| x := fst position; y := snd position; fx := fx subject; fy := fy subject |}.

(** A gesture: [start], the [drag] events in order, [end], each event after
    [start] paired with the position the simulation has left the node at
    when the event arrives.  [None] as soon as a call throws. *)
Definition gesture (simulation : option Simulation) (start : DragEvent)
    (moves : list (Q * Q * DragEvent)) (finish : Q * Q * DragEvent)
    (subject : Subject)
  : option (option Simulation * Subject) :=
  match dragstarted simulation start subject with
  | None => None
  | Some st =>
      match
        fold_left (fun acc move =>
                     match acc with
                     | None => None
                     | Some (sim, subj) =>
                         dragged sim (snd move) (at_position (fst move) subj)
                     end) moves (Some st)
      with
      | None => None
      | Some (sim, subj) =>
          dragended sim (snd finish) (at_position (fst finish) subj)
      end
  end.

End Drag.

(* ------------------------------------------------------------------ *)
(** ** Node colours *)

Module Styling.

(** What [getNodeColor] of [visualization.js] reads of a node. *)
Record Styled := { depth : Z; gender : option string }.

Definition depthColors : list string :=
  ["#3498DB"; "#2C3E50"; "#34495E"; "#7F8C8D"].

(** [array[i]] for an integer [i]: [undefined] outside the array. *)
Definition at_index (array : list string) (i : Z) : option string :=
  if (i <? 0)%Z then None else nth_error array (Z.to_nat i).

(** [getNodeColor] of [visualization.js]; [None] is [undefined]. *)
Definition getNodeColor (node : Styled) : option string :=
  if (depth node =? 0)%Z then Some "#3498DB"
  else
    let by_depth :=
      at_index depthColors
        (Z.min (depth node) (Z.of_nat (List.length depthColors) - 1)) in
    match gender node with
    | Some g =>
        if String.eqb g "" then by_depth
        else if String.eqb g "male" then Some "#7FB3D5"
        else if String.eqb g "female" then Some "#F5B7B1"
        else by_depth
    | None => by_depth
    end.

(** [getNodeColor] of the network variant: a [switch] on [node.type]. *)
Definition getNodeColor_network (node : GraphBuilder.Node) : string :=
  let t := GraphBuilder.type node in
  if String.eqb t "self" then "#3498db"
  else if String.eqb t "parent" then "#e74c3c"
  else if String.eqb t "child" then "#2ecc71"
  else if String.eqb t "spouse" then "#f39c12"
  else if String.eqb t "sibling" then "#9b59b6"
  else "#95a5a6".

End Styling.

(* ------------------------------------------------------------------ *)
(** ** [static/js/details.js]: the years under a name *)

Module Lifespan.

Section Engine.
Variable Date_parse : string -> option Z.
Variable getFullYear : Z -> Z.

(** [new Date(s).getFullYear()] appended to a string: the year of a valid
    date, and [NaN] for an invalid one. *)
Definition year_text (s : string) : string :=
  match Date_parse s with
  | Some t => Dates.Number_toString (getFullYear t)
  | None => "NaN"
  end.

(** The text built from a birth date and a death date: [lifespan] of a
    relation card, [datesText] of the person. *)
Definition lifespan (birth death : option string) : string :=
  ((if Flat.truthy birth then year_text (Relations.field birth) else "")
   ++ " - "
   ++ (if Flat.truthy death then year_text (Relations.field death) else ""))%string.

(** The paragraph of a relation card: [None] when it is left out. *)
Definition lifespan_paragraph (relation : Flat.GraphNode) : option string :=
  let text := lifespan (Flat.birth_date relation) (Flat.death_date relation) in
  if String.eqb text " - " then None else Some text.

(** [personDates.textContent] *)
Definition personDates (birth death : option string) : string :=
  let datesText := lifespan birth death in
  if String.eqb datesText " - " then "" else datesText.
End Engine.

End Lifespan.

(* ================================================================== *)
(** * Properties *)

(** ** The [Map] builtin *)

Module JsMapFacts.
Import JsMap.

Section WithValue.
Context {V : Type}.
Implicit Types (m : JsMap.t V) (k : string) (v : V).

Lemma keys_set_present k v m :
  In k (keys m) -> keys (set k v m) = keys m.
Proof.
  induction m as [|[k' v'] m IH]; simpl; [tauto|].
  intros [->|Hin].
  - now rewrite String.eqb_refl.
  - destruct (String.eqb_spec k' k); simpl; [reflexivity|].
    now rewrite IH.
Qed.

Lemma keys_set_absent k v m :
  ~ In k (keys m) -> keys (set k v m) = keys m ++ [k].
Proof.
  induction m as [|[k' v'] m IH]; simpl; [reflexivity|].
  intros Hn. destruct (String.eqb_spec k' k) as [->|Hne].
  - exfalso; apply Hn; now left.
  - simpl. rewrite IH; [reflexivity|]. intros H; apply Hn; now right.
Qed.

Lemma keys_set_cases k v m :
  keys (set k v m) = keys m \/ (~ In k (keys m) /\ keys (set k v m) = keys m ++ [k]).
Proof.
  destruct (in_dec string_dec k (keys m)) as [Hin|Hn].
  - left; now apply keys_set_present.
  - right; split; [assumption | now apply keys_set_absent].
Qed.

Lemma in_keys_set k k' v m :
  In k' (keys (set k v m)) <-> k' = k \/ In k' (keys m).
Proof.
  destruct (in_dec string_dec k (keys m)) as [Hin|Hn].
  - rewrite keys_set_present by assumption. split; [tauto|].
    intros [->|H]; assumption.
  - rewrite keys_set_absent by assumption. rewrite in_app_iff; simpl.
    split; [intros [H|[H|[]]]; auto | intros [->|H]; auto].
Qed.

Lemma NoDup_keys_set k v m :
  NoDup (keys m) -> NoDup (keys (set k v m)).
Proof.
  intros Hnd. destruct (keys_set_cases k v m) as [->|[Hn ->]]; [assumption|].
  apply NoDup_app; [assumption | repeat constructor; simpl; tauto |].
  intros a Ha [<-|[]]; contradiction.
Qed.

Lemma get_set_same k v m : get k (set k v m) = Some v.
Proof.
  induction m as [|[k' v'] m IH]; simpl.
  - now rewrite String.eqb_refl.
  - destruct (String.eqb_spec k' k) as [->|Hne]; simpl.
    + now rewrite String.eqb_refl.
    + destruct (String.eqb_spec k' k); [contradiction | exact IH].
Qed.

Lemma get_set_other k k' v m : k <> k' -> get k' (set k v m) = get k' m.
Proof.
  intros Hne. induction m as [|[k0 v0] m IH]; simpl.
  - destruct (String.eqb_spec k k'); [contradiction | reflexivity].
  - destruct (String.eqb_spec k0 k) as [->|Hk]; simpl.
    + destruct (String.eqb_spec k k'); [contradiction | reflexivity].
    + destruct (String.eqb_spec k0 k'); [reflexivity | exact IH].
Qed.

Lemma get_in k v m :
  NoDup (keys m) -> In (k, v) m -> get k m = Some v.
Proof.
  induction m as [|[k0 v0] m IH]; simpl; [tauto|].
  intros Hnd [Heq|Hin]; inversion Hnd as [|? ? Hnot Hnd']; subst.
  - inversion Heq; subst. now rewrite String.eqb_refl.
  - destruct (String.eqb_spec k0 k) as [->|Hne].
    + exfalso; apply Hnot. unfold keys. now apply (in_map fst _ (k, v)).
    + now apply IH.
Qed.

Lemma Forall_set (P : string * V -> Prop) k v m :
  P (k, v) -> (forall k' v', P (k', v') -> k' = k -> P (k', v)) ->
  Forall P m -> Forall P (set k v m).
Proof.
  intros Hkv Hrepl Hm. induction Hm as [|[k' v'] m Hk Hm IH]; simpl.
  - constructor; [assumption | constructor].
  - destruct (String.eqb_spec k' k); constructor; eauto.
Qed.

Lemma of_entries_snoc (es : list (string * V)) e :
  of_entries (es ++ [e]) = set (fst e) (snd e) (of_entries es).
Proof. unfold of_entries. now rewrite fold_left_app. Qed.

Lemma NoDup_keys_of_entries es : NoDup (keys (@of_entries V es)).
Proof.
  induction es as [|e es IH] using rev_ind.
  - constructor.
  - rewrite of_entries_snoc. now apply NoDup_keys_set.
Qed.

Lemma in_keys_of_entries k es :
  In k (keys (@of_entries V es)) <-> In k (map fst es).
Proof.
  induction es as [|e es IH] using rev_ind; [reflexivity|].
  rewrite of_entries_snoc, in_keys_set, IH, map_app, in_app_iff; simpl.
  intuition (subst; auto).
Qed.

(** Last write wins: the value under [k] is that of the last entry for
    [k]. *)
Lemma get_of_entries k es :
  get k (@of_entries V es) =
  option_map snd (find (fun e => String.eqb (fst e) k) (rev es)).
Proof.
  induction es as [|e es IH] using rev_ind; [reflexivity|].
  rewrite of_entries_snoc, rev_app_distr; simpl.
  destruct (String.eqb_spec (fst e) k) as [<-|Hne].
  - apply get_set_same.
  - rewrite get_set_other by assumption. exact IH.
Qed.

(** First insertion fixes the place: the head entry keeps its key. *)
Lemma keys_fold_head (es : list (string * V)) e m :
  exists ks,
    keys (fold_left (fun m e => set (fst e) (snd e) m) es (e :: m)) = fst e :: ks.
Proof.
  revert e m. induction es as [|e' es IH]; intros [k v] m; simpl.
  - eexists; reflexivity.
  - destruct (String.eqb k (fst e')); apply (IH (k, _)).
Qed.




End WithValue.

End JsMapFacts.

(** ** The grouped payload *)

Module GraphBuilderFacts.
Import GraphBuilder.

(** A loop whose body pushes one node and some links per element. *)
Lemma forEach_pushes {A : Type} (step : NetworkData -> A -> NetworkData)
    (n : A -> Node) (ls : A -> list Link) :
  (forall nd a, nodes (step nd a) = nodes nd ++ [n a]) ->
  (forall nd a, links (step nd a) = links nd ++ ls a) ->
  forall xs nd,
    nodes (forEach xs step nd) = nodes nd ++ map n xs /\
    links (forEach xs step nd) = links nd ++ flat_map ls xs.
Proof.
  intros Hn Hl xs. unfold forEach.
  induction xs as [|a xs IH]; intros nd; simpl.
  - now rewrite !app_nil_r.
  - destruct (IH (step nd a)) as [-> ->]. rewrite Hn, Hl, <- !app_assoc.
    split; reflexivity.
Qed.

(** The inner loop: one link per parent, and the flag raised as soon as
    there is a parent. *)
Lemma sibling_parent_loop s ps nd flag :
  forEach ps (sibling_parent_step s) (nd, flag) =
  ({| nodes := nodes nd; links := links nd ++ map (shared_parent_link s) ps |},
   match ps with [] => flag | _ => true end).
Proof.
  unfold forEach. revert nd flag.
  induction ps as [|p ps IH]; intros [ns ls] flag; simpl.
  - now rewrite app_nil_r.
  - unfold sibling_parent_step at 2; simpl. rewrite IH; simpl.
    rewrite <- app_assoc. f_equal. now destruct ps.
Qed.

Lemma sibling_links_closed entityId ps s :
  sibling_links entityId ps s =
  match ps with
  | [] => [direct_sibling_link entityId s]
  | _ => map (shared_parent_link s) ps
  end.
Proof.
  unfold sibling_links, sibling_step. rewrite sibling_parent_loop.
  destruct ps; reflexivity.
Qed.

Lemma sibling_step_pushes entityId ps nd s :
  nodes (sibling_step entityId ps nd s) = nodes nd ++ [node_of "sibling" s] /\
  links (sibling_step entityId ps nd s) = links nd ++ sibling_links entityId ps s.
Proof.
  rewrite sibling_links_closed. unfold sibling_step.
  rewrite sibling_parent_loop.
  destruct ps; simpl; rewrite ?app_nil_r; split; reflexivity.
Qed.

Lemma flat_map_single {A B : Type} (f : A -> B) (l : list A) :
  flat_map (fun a => [f a]) l = map f l.
Proof. induction l; simpl; congruence. Qed.

(** The network before deduplication, loop by loop. *)
Lemma collect_closed entityId personName fd :
  nodes (collect entityId personName fd) =
    {| id := entityId; name := personName; type := "self" |}
      :: map (node_of "parent") (parents fd)
      ++ map (node_of "child") (children fd)
      ++ map (node_of "spouse") (spouses fd)
      ++ map (node_of "sibling") (siblings fd) /\
  links (collect entityId personName fd) =
    map (parent_link entityId) (parents fd)
      ++ map (child_link entityId) (children fd)
      ++ map (spouse_link entityId) (spouses fd)
      ++ flat_map (sibling_links entityId (parents fd)) (siblings fd).
Proof.
  unfold collect.
  destruct (forEach_pushes (sibling_step entityId (parents fd))
              (node_of "sibling") (sibling_links entityId (parents fd))
              (fun nd s => proj1 (sibling_step_pushes entityId _ nd s))
              (fun nd s => proj2 (sibling_step_pushes entityId _ nd s))
              (siblings fd)
              (forEach (spouses fd) (spouse_step entityId)
                 (forEach (children fd) (child_step entityId)
                    (forEach (parents fd) (parent_step entityId)
                       (push_node {| id := entityId; name := personName; type := "self" |}
                          {| nodes := []; links := [] |}))))) as [-> ->].
  destruct (forEach_pushes (spouse_step entityId) (node_of "spouse")
              (fun p => [spouse_link entityId p])
              (fun _ _ => eq_refl) (fun _ _ => eq_refl) (spouses fd)
              (forEach (children fd) (child_step entityId)
                 (forEach (parents fd) (parent_step entityId)
                    (push_node {| id := entityId; name := personName; type := "self" |}
                       {| nodes := []; links := [] |})))) as [-> ->].
  destruct (forEach_pushes (child_step entityId) (node_of "child")
              (fun p => [child_link entityId p])
              (fun _ _ => eq_refl) (fun _ _ => eq_refl) (children fd)
              (forEach (parents fd) (parent_step entityId)
                 (push_node {| id := entityId; name := personName; type := "self" |}
                    {| nodes := []; links := [] |}))) as [-> ->].
  destruct (forEach_pushes (parent_step entityId) (node_of "parent")
              (fun p => [parent_link entityId p])
              (fun _ _ => eq_refl) (fun _ _ => eq_refl) (parents fd)
              (push_node {| id := entityId; name := personName; type := "self" |}
                 {| nodes := []; links := [] |})) as [-> ->].
  simpl. rewrite !flat_map_single, <- !app_assoc. split; reflexivity.
Qed.

Lemma find_map {A B : Type} (f : A -> B) (p : B -> bool) (l : list A) :
  find p (map f l) = option_map f (find (fun a => p (f a)) l).
Proof.
  induction l as [|a l IH]; simpl; [reflexivity|].
  destruct (p (f a)); [reflexivity | exact IH].
Qed.

(** Every entry of the deduplication map files a node under its own id. *)
Lemma entries_keyed (ns : list Node) :
  Forall (fun e => fst e = id (snd e))
    (JsMap.of_entries (map (fun node => (id node, node)) ns)).
Proof.
  induction ns as [|n ns IH] using rev_ind; [constructor|].
  rewrite map_app; simpl. rewrite JsMapFacts.of_entries_snoc; simpl.
  apply JsMapFacts.Forall_set; [reflexivity | | exact IH].
  intros k' v' _ ->. reflexivity.
Qed.

Lemma uniqueNodes_ids (ns : list Node) :
  map id (uniqueNodes ns) =
  JsMap.keys (JsMap.of_entries (map (fun node => (id node, node)) ns)).
Proof.
  unfold uniqueNodes, JsMap.values, JsMap.keys.
  induction (entries_keyed ns) as [|e m He _ IH]; simpl; congruence.
Qed.


Lemma uniqueNodes_same_ids (ns : list Node) i :
  In i (map id (uniqueNodes ns)) <-> In i (map id ns).
Proof.
  rewrite uniqueNodes_ids, JsMapFacts.in_keys_of_entries, map_map; simpl.
  reflexivity.
Qed.


(** The node kept under an id is the last one pushed with that id. *)
Lemma uniqueNodes_last (ns : list Node) n :
  In n (uniqueNodes ns) ->
  find (fun m => String.eqb (id m) (id n)) (rev ns) = Some n.
Proof.
  intros Hin.
  assert (Hget : JsMap.get (id n)
                   (JsMap.of_entries (map (fun node => (id node, node)) ns)) = Some n).
  { apply JsMapFacts.get_in; [apply JsMapFacts.NoDup_keys_of_entries|].
    unfold uniqueNodes, JsMap.values in Hin.
    apply in_map_iff in Hin as [[k v] [Hv He]]; simpl in Hv; subst v.
    pose proof (entries_keyed ns) as Hk.
    rewrite Forall_forall in Hk. specialize (Hk _ He); simpl in Hk.
    now subst k. }
  rewrite JsMapFacts.get_of_entries, <- map_rev, find_map in Hget; simpl in Hget.
  destruct (find _ (rev ns)) as [m|]; simpl in Hget; congruence.
Qed.

(** The first node pushed fixes the head of the deduplicated array. *)
Lemma uniqueNodes_head (n : Node) (ns : list Node) :
  exists kept rest, uniqueNodes (n :: ns) = kept :: rest /\ id kept = id n.
Proof.
  pose proof (uniqueNodes_ids (n :: ns)) as Hids.
  unfold JsMap.of_entries in Hids; simpl in Hids.
  destruct (JsMapFacts.keys_fold_head
              (map (fun node => (id node, node)) ns) (id n, n) []) as [ks Hks].
  simpl in Hks. rewrite Hks in Hids.
  destruct (uniqueNodes (n :: ns)) as [|kept rest]; [discriminate|].
  exists kept, rest. split; [reflexivity|]. now inversion Hids.
Qed.

(** The nodes pushed for the relatives: none is typed [self], and each
    carries the id of its relative. *)
Lemma relative_node fd n :
  In n (map (node_of "parent") (parents fd)
          ++ map (node_of "child") (children fd)
          ++ map (node_of "spouse") (spouses fd)
          ++ map (node_of "sibling") (siblings fd)) ->
  exists p,
    In p (parents fd ++ children fd ++ spouses fd ++ siblings fd) /\
    id n = p_id p /\ type n <> "self".
Proof.
  rewrite !in_app_iff, !in_map_iff.
  intros [[p [<- Hp]]|[[p [<- Hp]]|[[p [<- Hp]]|[p [<- Hp]]]]];
    exists p; rewrite !in_app_iff; (split; [tauto|]);
    (split; [reflexivity | simpl; discriminate]).
Qed.

Lemma in_relative_nodes fd p :
  In p (parents fd ++ children fd ++ spouses fd ++ siblings fd) ->
  exists n,
    In n (rev (map (node_of "parent") (parents fd)
                 ++ map (node_of "child") (children fd)
                 ++ map (node_of "spouse") (spouses fd)
                 ++ map (node_of "sibling") (siblings fd))) /\
    id n = p_id p /\ type n <> "self".
Proof.
  rewrite !in_app_iff.
  intros [Hp|[Hp|[Hp|Hp]]];
    [exists (node_of "parent" p) | exists (node_of "child" p)
    | exists (node_of "spouse" p) | exists (node_of "sibling" p)];
    (split; [rewrite <- in_rev, !in_app_iff, !in_map_iff; eauto 6|]);
    (split; [reflexivity | simpl; discriminate]).
Qed.

Lemma find_app {A : Type} (f : A -> bool) (l1 l2 : list A) :
  find f (l1 ++ l2) =
  match find f l1 with Some x => Some x | None => find f l2 end.
Proof.
  induction l1 as [|a l1 IH]; simpl; [reflexivity|].
  destruct (f a); [reflexivity | exact IH].
Qed.

Lemma links_not_sibling entityId personName fd :
  parents fd <> [] ->
  Forall (fun l => ltype l <> "sibling") (links (networkData entityId personName fd)).
Proof.
  intros Hp. simpl.
  rewrite (proj2 (collect_closed entityId personName fd)).
  rewrite !Forall_app. repeat split.
  1-3: apply Forall_forall; intros l Hl; apply in_map_iff in Hl as [p [<- _]];
       simpl; discriminate.
  apply Forall_forall. intros l Hl.
  apply in_flat_map in Hl as [s [_ Hl]].
  rewrite sibling_links_closed in Hl.
  destruct (parents fd) as [|p ps]; [contradiction|].
  apply in_map_iff in Hl as [q [<- _]]. simpl; discriminate.
Qed.

(** The links of one sibling stand together in the link array. *)
Lemma sibling_links_segment entityId personName fd s :
  In s (siblings fd) ->
  exists before after,
    links (networkData entityId personName fd) =
    before ++ sibling_links entityId (parents fd) s ++ after.
Proof.
  intros Hin. apply in_split in Hin as [l1 [l2 Heq]].
  simpl. rewrite (proj2 (collect_closed entityId personName fd)), Heq.
  rewrite flat_map_app; simpl.
  exists (map (parent_link entityId) (parents fd)
            ++ map (child_link entityId) (children fd)
            ++ map (spouse_link entityId) (spouses fd)
            ++ flat_map (sibling_links entityId (parents fd)) l1),
         (flat_map (sibling_links entityId (parents fd)) l2).
  rewrite <- !app_assoc. reflexivity.
Qed.




(** C2.  Each sibling of the payload contributes one run of links to the
    link array.  With [k >= 1] parents the run is the [k] parent-typed
    links, one from each parent to the sibling, and no link of the network
    is typed [sibling]; with no parent the run is the single link from the
    central person to the sibling, typed [sibling]. *)
Theorem sibling_links_by_parents entityId personName fd s :
  In s (siblings fd) ->
  let emitted := sibling_links entityId (parents fd) s in
  (exists before after,
     links (networkData entityId personName fd) = before ++ emitted ++ after) /\
  (parents fd <> [] ->
     emitted = map (shared_parent_link s) (parents fd) /\
     List.length emitted = List.length (parents fd) /\
     Forall (fun l => ltype l <> "sibling")
       (links (networkData entityId personName fd))) /\
  (parents fd = [] -> emitted = [direct_sibling_link entityId s]).
Proof.
  intros Hin emitted. split; [now apply sibling_links_segment|].
  subst emitted. rewrite sibling_links_closed. split.
  - intros Hp. destruct (parents fd) as [|p ps] eqn:E; [contradiction|].
    split; [reflexivity|]. split; [now rewrite length_map|].
    apply links_not_sibling. now rewrite E.
  - now intros ->.
Qed.

Lemma sibling_links_by_parents_witness :
  In {| p_id := "Q3"; p_name := "Margaret" |} (siblings windsor) /\
  parents windsor <> [] /\
  sibling_links "Q9682" (parents windsor) {| p_id := "Q3"; p_name := "Margaret" |}
  = [ {| source := "Q1"; target := "Q3"; ltype := "parent" |} ].
Proof.
  assert (Hin : In {| p_id := "Q3"; p_name := "Margaret" |} (siblings windsor))
    by (simpl; left; reflexivity).
  assert (Hp : parents windsor <> []) by (simpl; discriminate).
  split; [exact Hin|]. split; [exact Hp|].
  exact (proj1 (proj1 (proj2 (sibling_links_by_parents "Q9682" "Elizabeth II"
                                windsor _ Hin)) Hp)).
Defined.

(** One parent, one spouse, one sibling: four nodes, and the sibling
    linked through the shared parent. *)
Example windsor_network :
  networkData "Q9682" "Elizabeth II" windsor =
  {| nodes := [ {| id := "Q9682"; name := "Elizabeth II"; type := "self" |};
                {| id := "Q1"; name := "George VI"; type := "parent" |};
                {| id := "Q2"; name := "Philip"; type := "spouse" |};
                {| id := "Q3"; name := "Margaret"; type := "sibling" |} ];
     links := [ {| source := "Q1"; target := "Q9682"; ltype := "parent" |};
                {| source := "Q9682"; target := "Q2"; ltype := "spouse" |};
                {| source := "Q1"; target := "Q3"; ltype := "parent" |} ] |}.
Proof. reflexivity. Qed.

(** C5.  Before deduplication the node array holds the central person and
    one node per entry of the four arrays; after it, it is not empty and
    begins with a node that carries the central person's id.  That node is
    the self node when no relative of the payload carries the central
    person's id; when one does, the deduplicated array holds no self node
    at all. *)
Theorem node_counts entityId personName fd :
  let self := {| id := entityId; name := personName; type := "self" |} in
  let relatives := parents fd ++ children fd ++ spouses fd ++ siblings fd in
  let before := nodes (collect entityId personName fd) in
  let after := nodes (networkData entityId personName fd) in
  List.length before =
    (1 + List.length (parents fd) + List.length (children fd)
       + List.length (spouses fd) + List.length (siblings fd))%nat /\
  (1 <= List.length after)%nat /\
  exists kept rest,
    after = kept :: rest /\ id kept = entityId /\
    ((forall p, In p relatives -> p_id p <> entityId) -> kept = self) /\
    ((exists p, In p relatives /\ p_id p = entityId) ->
     forall n, In n after -> type n <> "self").
Proof.
  intros self relatives before after. split.
  - subst before. rewrite (proj1 (collect_closed entityId personName fd)); simpl.
    rewrite !length_app, !length_map. lia.
  - pose proof (proj1 (collect_closed entityId personName fd)) as Hbefore.
    fold before self in Hbefore.
    assert (Hlast : forall n, In n after ->
              find (fun m => String.eqb (id m) (id n)) (rev before) = Some n)
      by (intros n; apply uniqueNodes_last).
    assert (Hhead : exists kept rest, after = kept :: rest /\ id kept = entityId).
    { subst after. simpl. fold before. rewrite Hbefore. apply uniqueNodes_head. }
    destruct Hhead as [kept [rest [Hafter Hid]]].
    split; [rewrite Hafter; simpl; lia|].
    exists kept, rest. split; [exact Hafter|]. split; [exact Hid|].
    rewrite Hbefore in Hlast. split.
    + intros Hnone.
      assert (Hk : In kept after) by (rewrite Hafter; now left).
      apply Hlast, find_some in Hk as [Hk _].
      apply in_rev in Hk.
      destruct Hk as [Hk|Hk]; [now symmetry|].
      apply relative_node in Hk as [p [Hp [Hpid _]]].
      elim (Hnone p Hp). congruence.
    + intros [p [Hp Hpid]] n Hn Hty.
      apply Hlast in Hn. simpl in Hn.
      destruct (in_relative_nodes fd p Hp) as [m [Hm [Hmid Hmty]]].
      rewrite find_app in Hn.
      destruct (find _ (rev _)) as [m'|] eqn:E.
      * inversion Hn; subst m'. apply find_some in E as [E _].
        apply in_rev in E.
        apply relative_node in E as [_ [_ [_ E]]]. contradiction.
      * apply (find_none _ _ E m) in Hm.
        simpl in Hn. destruct (String.eqb_spec entityId (id n)) as [Heq|]; [|discriminate].
        rewrite <- Heq, Hmid, Hpid, String.eqb_refl in Hm. discriminate.
Qed.

Lemma node_counts_witness :
  (forall p, In p (parents windsor ++ children windsor
                     ++ spouses windsor ++ siblings windsor) ->
             p_id p <> "Q9682") /\
  exists rest,
    nodes (networkData "Q9682" "Elizabeth II" windsor) =
    {| id := "Q9682"; name := "Elizabeth II"; type := "self" |} :: rest.
Proof.
  assert (Hnone : forall p, In p (parents windsor ++ children windsor
                                    ++ spouses windsor ++ siblings windsor) ->
                            p_id p <> "Q9682").
  { intros p [<-|[<-|[<-|[]]]]; discriminate. }
  split; [exact Hnone|].
  destruct (node_counts "Q9682" "Elizabeth II" windsor)
    as [_ [_ [kept [rest [Hafter [_ [Hself _]]]]]]].
  exists rest. rewrite <- (Hself Hnone). exact Hafter.
Defined.

(** C5 as the specification words it fails: the payload lists the central
    person among the parents.  Two nodes are collected, the self node and
    the parent node; they share the id, the parent node is constructed
    last and replaces the self node, and the deduplicated array holds one
    node, typed [parent]: no self node is present. *)
Lemma self_node_replaced :
  let fd := {| parents := [ {| p_id := "Q9"; p_name := "Edward (parent entry)" |} ];
               children := []; spouses := []; siblings := [] |} in
  List.length (nodes (collect "Q9" "Edward" fd)) = 2%nat /\
  nodes (networkData "Q9" "Edward" fd) =
    [ {| id := "Q9"; name := "Edward (parent entry)"; type := "parent" |} ] /\
  ~ In {| id := "Q9"; name := "Edward"; type := "self" |}
       (nodes (networkData "Q9" "Edward" fd)) /\
  Forall (fun n => type n <> "self") (nodes (networkData "Q9" "Edward" fd)).
Proof.
  simpl. split; [reflexivity|]. split; [reflexivity|]. split.
  - intros [H|[]]; discriminate.
  - repeat constructor. discriminate.
Qed.

End GraphBuilderFacts.

(** ** The sort under a comparator that need not be consistent *)

Module JsArrayFacts.
Import JsArray.

Section Sort.
Context {A : Type}.
Variable comparefn : A -> A -> Number.

Lemma extend_run_app isDescending previousElement (a : list A) :
  a = fst (extend_run comparefn isDescending previousElement a)
      ++ snd (extend_run comparefn isDescending previousElement a).
Proof.
  revert previousElement. induction a as [|c rest IH]; intros prev; simpl; [reflexivity|].
  destruct (if isDescending then _ else _); [reflexivity|].
  specialize (IH c). destruct (extend_run comparefn isDescending c rest) as [run left].
  simpl in *. now f_equal.
Qed.

Lemma CountAndMakeRun_perm (a : list A) :
  Permutation a (fst (CountAndMakeRun comparefn a) ++ snd (CountAndMakeRun comparefn a)).
Proof.
  destruct a as [|h [|l rest]]; simpl; [reflexivity | reflexivity |].
  pose proof (extend_run_app (Compare comparefn l h <? 0)%Z l rest) as Happ.
  destruct (extend_run comparefn (Compare comparefn l h <? 0)%Z l rest) as [run left].
  simpl in Happ. rewrite Happ at 1.
  destruct (Compare comparefn l h <? 0)%Z; cbn [fst snd].
  - change (h :: l :: run ++ left) with ((h :: l :: run) ++ left).
    apply Permutation_app_tail, Permutation_rev.
  - reflexivity.
Qed.

Lemma insert_at_perm left pivot (a : list A) :
  Permutation (pivot :: a) (insert_at left pivot a).
Proof.
  unfold insert_at. rewrite <- (firstn_skipn left a) at 1.
  apply Permutation_middle.
Qed.

Lemma BinaryInsertionSort_perm (run rest : list A) :
  Permutation (run ++ rest) (BinaryInsertionSort comparefn run rest).
Proof.
  unfold BinaryInsertionSort. revert run.
  induction rest as [|pivot rest IH]; intros run; simpl.
  - now rewrite app_nil_r.
  - rewrite <- IH. rewrite <- Permutation_middle.
    change (pivot :: run ++ rest) with ((pivot :: run) ++ rest).
    apply Permutation_app_tail, insert_at_perm.
Qed.

Lemma sort_perm (a : list A) : Permutation a (sort comparefn a).
Proof.
  unfold sort. pose proof (CountAndMakeRun_perm a) as H.
  destruct (CountAndMakeRun comparefn a) as [run rest]. simpl in H.
  rewrite H. apply BinaryInsertionSort_perm.
Qed.

(** The search ends by its own test: once the fuel covers [right - left],
    more fuel changes nothing. *)
Lemma search_enough_fuel fuel fuel' pivot (a : list A) left right :
  (right - left <= fuel)%nat -> (right - left <= fuel')%nat ->
  search comparefn fuel pivot a left right = search comparefn fuel' pivot a left right.
Proof.
  revert fuel' left right.
  induction fuel as [|fuel IH]; intros [|fuel'] left right H H'; cbn [search];
    try reflexivity;
    destruct (Nat.ltb_spec left right) as [Hlt|Hge]; try reflexivity; try lia.
  assert (Hmid : ((right - left) / 2 < right - left)%nat) by (apply Nat.div_lt; lia).
  destruct (Compare comparefn pivot _ <? 0)%Z; apply IH; lia.
Qed.

(** [R a b]: [a] may stand before [b].  [D] is what is known of every
    element of the array. *)
Variable R : A -> A -> Prop.
Variable D : A -> Prop.

Hypothesis R_trans : forall a b c, R a b -> R b c -> R a c.
Hypothesis before_pivot :
  forall pivot m, D pivot -> D m -> (Compare comparefn pivot m < 0)%Z -> R pivot m.
Hypothesis after_pivot :
  forall pivot m, D pivot -> D m -> (0 <= Compare comparefn pivot m)%Z -> R m pivot.

(** A list read right to left. *)
Local Abbreviation sorted_rev :=
  (StronglySorted (fun later earlier => R earlier later)).

Lemma sorted_rev_rev rp : sorted_rev rp -> StronglySorted R (rev rp).
Proof.
  induction 1 as [|later rest Hs IH Hall]; simpl; [constructor|].
  assert (Hall' : Forall (fun e => R e later) (rev rest)).
  { rewrite Forall_forall in Hall |- *. intros e He. apply Hall. now apply in_rev. }
  clear Hs Hall. induction IH as [|e l Hl IHl He]; simpl.
  - repeat constructor.
  - inversion Hall'; subst. constructor; [now apply IHl|].
    apply Forall_app. split; [assumption | now repeat constructor].
Qed.

Lemma sorted_app (l1 l2 : list A) :
  StronglySorted R (l1 ++ l2) <->
  StronglySorted R l1 /\ StronglySorted R l2 /\
  (forall x y, In x l1 -> In y l2 -> R x y).
Proof.
  induction l1 as [|a l1 IH]; simpl.
  - split; [intros H; repeat split; [constructor | assumption | tauto] | tauto].
  - split.
    + intros H. inversion H as [|? ? Hs Hall]; subst.
      apply IH in Hs as [H1 [H2 H12]]. apply Forall_app in Hall as [Ha1 Ha2].
      repeat split; [now constructor | assumption |].
      intros x y [<-|Hx] Hy; [|now apply H12].
      rewrite Forall_forall in Ha2. now apply Ha2.
    + intros [H1 [H2 H12]]. inversion H1 as [|? ? Hs Hall]; subst.
      constructor.
      * apply IH. repeat split; [assumption | assumption |].
        intros x y Hx Hy. apply H12; [now right | assumption].
      * apply Forall_app. split; [assumption|].
        apply Forall_forall. intros y Hy. apply H12; [now left | assumption].
Qed.

(** The run the array starts with, before it is turned round. *)
Lemma extend_run_sorted (isDescending : bool) previousElement (a : list A) :
  D previousElement -> Forall D a ->
  Sorted (fun x y => if isDescending then R y x else R x y)
    (previousElement :: fst (extend_run comparefn isDescending previousElement a)).
Proof.
  intros Dp Da. revert previousElement Dp.
  induction Da as [|c rest Dc Drest IH]; intros prev Dp; simpl.
  - repeat constructor.
  - destruct isDescending.
    + destruct (Z.leb_spec 0 (Compare comparefn c prev)) as [Hle|Hlt].
      * repeat constructor.
      * specialize (IH c Dc).
        destruct (extend_run comparefn true c rest) as [run left]. simpl in *.
        constructor; [assumption|]. constructor. now apply before_pivot.
    + destruct (Z.ltb_spec (Compare comparefn c prev) 0) as [Hlt|Hle].
      * repeat constructor.
      * specialize (IH c Dc).
        destruct (extend_run comparefn false c rest) as [run left]. simpl in *.
        constructor; [assumption|]. constructor. now apply after_pivot.
Qed.

Lemma CountAndMakeRun_sorted (a : list A) :
  Forall D a -> StronglySorted R (fst (CountAndMakeRun comparefn a)).
Proof.
  intros Da. destruct a as [|h [|l rest]]; simpl; [repeat constructor ..|].
  inversion Da as [|? ? Dh Da']; subst. inversion Da' as [|? ? Dl Drest]; subst.
  pose proof (extend_run_sorted (Compare comparefn l h <? 0)%Z l rest Dl Drest) as Hrun.
  destruct (extend_run comparefn (Compare comparefn l h <? 0)%Z l rest) as [run left].
  simpl in Hrun.
  destruct (Z.ltb_spec (Compare comparefn l h) 0) as [Hlt|Hle]; cbn [fst].
  - change ((rev run ++ [l]) ++ [h]) with (rev (h :: l :: run)).
    apply sorted_rev_rev. apply Sorted_StronglySorted.
    + intros x y z Hxy Hyz. now apply (R_trans z y x).
    + constructor; [assumption|]. constructor. now apply before_pivot.
  - apply Sorted_StronglySorted.
    + intros x y z. apply R_trans.
    + constructor; [assumption|]. constructor. now apply after_pivot.
Qed.

(** The search stops at a place where [pivot] may stand: after all the
    elements before the place, before all those from it on. *)
Lemma search_place fuel pivot (a : list A) left right :
  StronglySorted R a -> Forall D a -> D pivot ->
  (left <= right <= List.length a)%nat -> (right - left <= fuel)%nat ->
  Forall (fun e => R e pivot) (firstn left a) ->
  Forall (fun e => R pivot e) (skipn right a) ->
  Forall (fun e => R e pivot) (firstn (search comparefn fuel pivot a left right) a) /\
  Forall (fun e => R pivot e) (skipn (search comparefn fuel pivot a left right) a).
Proof.
  intros Hs Da Dp. revert left right.
  induction fuel as [|fuel IH]; intros left right Hlr Hfuel Hl Hr; cbn [search].
  - replace right with left in Hr by lia. now split.
  - destruct (Nat.ltb_spec left right) as [Hlt|Hge];
      [|replace right with left in Hr by lia; now split].
    set (mid := (left + (right - left) / 2)%nat).
    assert (Hmid : (left <= mid < right)%nat).
    { subst mid. split; [lia|].
      assert ((right - left) / 2 < right - left)%nat
        by (apply Nat.div_lt; lia).
      lia. }
    destruct (nth_split a pivot (n := mid)) as [l1 [l2 [Ha Hl1]]]; [lia|].
    set (m := nth mid a pivot) in *.
    assert (Dm : D m).
    { rewrite Forall_forall in Da. apply Da. rewrite Ha.
      apply in_or_app. right. now left. }
    assert (Hfirst : firstn (mid + 1) a = l1 ++ [m]).
    { rewrite Ha at 1. replace (mid + 1)%nat with (List.length l1 + 1)%nat by lia.
      rewrite firstn_app_2. reflexivity. }
    assert (Hskip : skipn mid a = m :: l2).
    { rewrite Ha at 1. rewrite <- Hl1. rewrite skipn_app, skipn_all, Nat.sub_diag.
      reflexivity. }
    rewrite Ha in Hs. apply sorted_app in Hs as [_ [Hm H12]].
    apply StronglySorted_inv in Hm as [_ Hafter].
    destruct (Z.ltb_spec (Compare comparefn pivot m) 0) as [Hneg|Hpos].
    + apply IH; [lia | lia | assumption |].
      rewrite Hskip. constructor; [now apply before_pivot|].
      rewrite Forall_forall in Hafter |- *. intros e He.
      apply (R_trans pivot m e); [now apply before_pivot | now apply Hafter].
    + apply IH; [lia | lia | | assumption].
      rewrite Hfirst. apply Forall_app. split; [|repeat constructor; now apply after_pivot].
      apply Forall_forall. intros e He.
      apply (R_trans e m pivot); [|now apply after_pivot].
      apply H12; [assumption | now left].
Qed.

Lemma insert_at_sorted pivot (a : list A) :
  StronglySorted R a -> Forall D a -> D pivot ->
  StronglySorted R
    (insert_at (search comparefn (List.length a) pivot a 0 (List.length a)) pivot a).
Proof.
  intros Hs Da Dp.
  destruct (search_place (List.length a) pivot a 0 (List.length a) Hs Da Dp)
    as [Hbefore Hafter]; [lia | lia | constructor | rewrite skipn_all; constructor |].
  set (left := search comparefn (List.length a) pivot a 0 (List.length a)) in *.
  unfold insert_at. rewrite <- (firstn_skipn left a) in Hs.
  apply sorted_app in Hs as [H1 [H2 H12]].
  apply sorted_app. repeat split; [assumption | now constructor |].
  rewrite Forall_forall in Hbefore.
  intros x y Hx [<-|Hy]; [now apply Hbefore | now apply H12].
Qed.

Lemma BinaryInsertionSort_sorted (run rest : list A) :
  StronglySorted R run -> Forall D run -> Forall D rest ->
  StronglySorted R (BinaryInsertionSort comparefn run rest).
Proof.
  unfold BinaryInsertionSort. intros Hs Drun Drest. revert run Hs Drun.
  induction Drest as [|pivot rest Dp Drest IH]; intros run Hs Drun; simpl; [assumption|].
  apply IH; [now apply insert_at_sorted|].
  apply Forall_forall. intros e He.
  apply (Permutation_in _ (Permutation_sym (insert_at_perm _ pivot run))) in He.
  destruct He as [<-|He]; [assumption|].
  rewrite Forall_forall in Drun. now apply Drun.
Qed.

Lemma sort_sorted (a : list A) :
  Forall D a -> StronglySorted R (sort comparefn a).
Proof.
  intros Da. unfold sort.
  pose proof (CountAndMakeRun_sorted a Da) as Hrun.
  pose proof (CountAndMakeRun_perm a) as Hperm.
  destruct (CountAndMakeRun comparefn a) as [run rest]. simpl in Hrun, Hperm.
  assert (Dall : Forall D (run ++ rest)).
  { apply Forall_forall. intros e He.
    apply (Permutation_in _ (Permutation_sym Hperm)) in He.
    rewrite Forall_forall in Da. now apply Da. }
  apply Forall_app in Dall as [Drun Drest].
  now apply BinaryInsertionSort_sorted.
Qed.
End Sort.

End JsArrayFacts.

(** ** Relation buckets and relation cards *)

Module RelationsFacts.
Import Flat Relations.

(** The end of [link] that is not the central person. *)
Local Abbreviation relatedId c link :=
  (if String.eqb (source link) (id c) then target link else source link).

Lemma classify_link_grows ns c r link :
  incl (r_parents r) (r_parents (classify_link ns c r link)) /\
  incl (r_children r) (r_children (classify_link ns c r link)) /\
  incl (r_spouses r) (r_spouses (classify_link ns c r link)) /\
  incl (r_siblings r) (r_siblings (classify_link ns c r link)).
Proof.
  unfold classify_link.
  destruct (_ && _); [repeat split; apply incl_refl|].
  destruct (find_by_id _ ns); [|repeat split; apply incl_refl].
  repeat match goal with
    | |- context [if ?b then _ else _] => destruct b
    end; simpl; repeat split;
    solve [apply incl_refl | apply incl_appl, incl_refl].
Qed.

Lemma forEach_classify_grows ns c links r :
  incl (r_parents r) (r_parents (forEach links (classify_link ns c) r)) /\
  incl (r_children r) (r_children (forEach links (classify_link ns c) r)) /\
  incl (r_spouses r) (r_spouses (forEach links (classify_link ns c) r)) /\
  incl (r_siblings r) (r_siblings (forEach links (classify_link ns c) r)).
Proof.
  unfold forEach. revert r.
  induction links as [|l links IH]; intros r; simpl.
  - repeat split; apply incl_refl.
  - destruct (IH (classify_link ns c r l)) as (H1 & H2 & H3 & H4).
    destruct (classify_link_grows ns c r l) as (G1 & G2 & G3 & G4).
    repeat split; eapply incl_tran; eassumption.
Qed.

(** The iteration that handles [link] starts from some buckets and its
    result is kept to the end of the pass. *)
Lemma pass_through_link ns c links link :
  In link links ->
  exists r,
    let step := classify_link ns c r link in
    let final := forEach links (classify_link ns c) no_relations in
    incl (r_parents step) (r_parents final) /\
    incl (r_children step) (r_children final) /\
    incl (r_spouses step) (r_spouses final) /\
    incl (r_siblings step) (r_siblings final).
Proof.
  intros Hin. apply in_split in Hin as [l1 [l2 ->]].
  exists (forEach l1 (classify_link ns c) no_relations). simpl.
  unfold forEach at 2 4 6 8. rewrite fold_left_app. simpl.
  apply forEach_classify_grows.
Qed.

(** C3.  With [c] the central person of a flattened payload, every link of
    the payload is handled as follows by the grouping pass.  When the link
    touches [c] and its other end is the node [p] of the payload: a
    [parent] link whose target is [c] pushes [p] on the parents; a [parent]
    link whose source is [c], and whose target is not, pushes [p] on the
    children; a [spouse] link pushes [p] on the spouses and a [sibling] link
    on the siblings, whichever end [c] is; and what is pushed is in the
    buckets the pass ends with.  When the link touches [c] at neither end,
    its iteration leaves the four buckets as they are. *)
Theorem central_links_classified fd c :
  centralPerson fd = Some c ->
  exists final,
    group_relations fd = Some final /\
    forall link, In link (links fd) ->
      (forall p r,
         source link = id c \/ target link = id c ->
         find_by_id (relatedId c link) (nodes fd) = Some p ->
         let step := classify_link (nodes fd) c r link in
         (type link = "parent" -> target link = id c ->
            step = push_parent p r /\ In p (r_parents final)) /\
         (type link = "parent" -> source link = id c -> target link <> id c ->
            step = push_child p r /\ In p (r_children final)) /\
         (type link = "spouse" ->
            step = push_spouse p r /\ In p (r_spouses final)) /\
         (type link = "sibling" ->
            step = push_sibling p r /\ In p (r_siblings final))) /\
      (source link <> id c -> target link <> id c ->
         forall r, classify_link (nodes fd) c r link = r).
Proof.
  intros Hc. unfold group_relations. rewrite Hc.
  eexists; split; [reflexivity|].
  intros link Hin. split.
  - intros p r Htouch Hfind.
    destruct (pass_through_link (nodes fd) c (links fd) link Hin)
      as (r0 & K1 & K2 & K3 & K4).
    assert (Hstep : forall r',
      classify_link (nodes fd) c r' link =
      if String.eqb (type link) "parent" then
        if String.eqb (target link) (id c) then push_parent p r' else push_child p r'
      else if String.eqb (type link) "spouse" then push_spouse p r'
      else if String.eqb (type link) "sibling" then push_sibling p r'
      else r').
    { intros r'. unfold classify_link. rewrite Hfind.
      destruct (String.eqb_spec (source link) (id c)) as [Hs|Hs];
        destruct (String.eqb_spec (target link) (id c)) as [Ht|Ht];
        simpl; try reflexivity.
      destruct Htouch; contradiction. }
    split; [|split; [|split]].
    + intros Hty Ht. rewrite Hty, Ht in Hstep. simpl in Hstep.
      rewrite String.eqb_refl in Hstep.
      rewrite Hstep in K1 |- *. split; [reflexivity|].
      apply K1, in_or_app; right; now left.
    + intros Hty _ Ht. rewrite Hty in Hstep. simpl in Hstep.
      destruct (String.eqb_spec (target link) (id c)); [contradiction|].
      rewrite Hstep in K2 |- *. split; [reflexivity|].
      apply K2, in_or_app; right; now left.
    + intros Hty. rewrite Hty in Hstep. simpl in Hstep.
      rewrite Hstep in K3 |- *. split; [reflexivity|].
      apply K3, in_or_app; right; now left.
    + intros Hty. rewrite Hty in Hstep. simpl in Hstep.
      rewrite Hstep in K4 |- *. split; [reflexivity|].
      apply K4, in_or_app; right; now left.
  - intros Hs Ht r. unfold classify_link.
    destruct (String.eqb_spec (source link) (id c)); [contradiction|].
    destruct (String.eqb_spec (target link) (id c)); [contradiction|].
    reflexivity.
Qed.

Lemma central_links_classified_witness :
  centralPerson windsor_graph = Some elizabeth /\
  In george
     (r_parents (forEach (links windsor_graph)
                   (classify_link (nodes windsor_graph) elizabeth) no_relations)).
Proof.
  assert (Hc : centralPerson windsor_graph = Some elizabeth) by reflexivity.
  split; [exact Hc|].
  destruct (central_links_classified windsor_graph elizabeth Hc) as [final [Hg H]].
  assert (Hfinal : final = forEach (links windsor_graph)
                             (classify_link (nodes windsor_graph) elizabeth) no_relations).
  { unfold group_relations in Hg. rewrite Hc in Hg. now inversion Hg. }
  rewrite <- Hfinal.
  refine (proj2 (proj1 (proj1 (H {| source := "Q1"; target := "Q9682"; type := "parent" |} _)
                          george no_relations _ _) eq_refl eq_refl)).
  - simpl; left; reflexivity.
  - right; reflexivity.
  - reflexivity.
Defined.

Section Cards.
Variable Date_parse : string -> option Z.

Local Abbreviation cmp := (by_birth_date Date_parse).

Lemma birth_time_some r t :
  birth_time Date_parse r = Some t ->
  truthy (birth_date r) = true /\ Date_parse (field (birth_date r)) = Some t.
Proof.
  unfold birth_time. destruct (truthy (birth_date r)); [auto | discriminate].
Qed.

(** The pivot goes left of a card only when it has a birth date. *)
Lemma left_is_dated pivot m :
  (JsArray.Compare cmp pivot m < 0)%Z -> truthy (birth_date pivot) = true.
Proof.
  unfold JsArray.Compare, by_birth_date.
  destruct (truthy (birth_date pivot)); simpl; [reflexivity | lia].
Qed.

(** A pivot with a birth date goes right of a card only when the card has
    one too. *)
Lemma right_of_dated pivot m :
  (0 <= JsArray.Compare cmp pivot m)%Z ->
  truthy (birth_date pivot) = true -> truthy (birth_date m) = true.
Proof.
  unfold JsArray.Compare, by_birth_date. intros Hc Hp. rewrite Hp in Hc.
  destruct (truthy (birth_date m)); simpl in *; [reflexivity | lia].
Qed.

Lemma cmp_dated a b ta tb :
  birth_time Date_parse a = Some ta -> birth_time Date_parse b = Some tb ->
  JsArray.Compare cmp a b = (ta - tb)%Z.
Proof.
  intros Ha Hb.
  apply birth_time_some in Ha as [Ha1 Ha2], Hb as [Hb1 Hb2].
  unfold JsArray.Compare, by_birth_date, date_difference.
  now rewrite Ha1, Hb1, Ha2, Hb2.
Qed.

(** Whatever the dates are, the cards without a birth date come last. *)
Lemma sort_undated_last relations :
  StronglySorted undated_last (JsArray.sort cmp relations).
Proof.
  apply (JsArrayFacts.sort_sorted cmp undated_last (fun _ => True)).
  - intros a b c Hab Hbc Hc. auto.
  - intros pivot m _ _ Hneg _. now apply left_is_dated in Hneg.
  - intros pivot m _ _ Hpos. exact (right_of_dated pivot m Hpos).
  - apply Forall_forall; auto.
Qed.

(** The two orders together, on cards whose birth dates parse: the order
    the sort keeps when no comparison answers [NaN]. *)
Local Abbreviation dated_ascending :=
  (fun a b => parses Date_parse a /\ parses Date_parse b /\
              undated_last a b /\ ascending Date_parse a b).

Lemma dated_ascending_trans (a b c : GraphNode) :
  dated_ascending a b -> dated_ascending b c -> dated_ascending a c.
Proof.
  intros [Pa [Pb [Uab Aab]]] [_ [Pc [Ubc Abc]]].
  split; [assumption|]. split; [assumption|]. split; [intros Hc; auto|].
  intros ta tc Ha Hc.
  pose proof (proj1 (birth_time_some c tc Hc)) as Tc.
  pose proof (Pb (Ubc Tc)) as Hb.
  destruct (birth_time Date_parse b) as [tb|] eqn:Eb; [|contradiction].
  specialize (Aab ta tb Ha Eb). specialize (Abc tb tc Eb Hc). lia.
Qed.

(** When every birth date that is there parses, the dated cards are in
    ascending order. *)
Lemma sort_ascending relations :
  Forall (parses Date_parse) relations ->
  StronglySorted (ascending Date_parse) (JsArray.sort cmp relations).
Proof.
  intros Hp.
  assert (Hs : StronglySorted dated_ascending (JsArray.sort cmp relations)).
  { apply (JsArrayFacts.sort_sorted cmp dated_ascending (parses Date_parse));
      [apply dated_ascending_trans | | | exact Hp].
    - intros pivot m Pp Pm Hneg. split; [assumption|]. split; [assumption|]. split.
      + intros _. now apply left_is_dated in Hneg.
      + intros tp tm Hpt Hmt. rewrite (cmp_dated pivot m tp tm Hpt Hmt) in Hneg. lia.
    - intros pivot m Pp Pm Hpos. split; [assumption|]. split; [assumption|]. split.
      + exact (right_of_dated pivot m Hpos).
      + intros tm tp Hmt Hpt. rewrite (cmp_dated pivot m tp tm Hpt Hmt) in Hpos. lia. }
  induction Hs as [|r rest _ IH Hall]; constructor; [exact IH|].
  rewrite Forall_forall in Hall |- *. intros e He. apply (Hall e He).
Qed.

(** What the sort of a section does guarantee.  A section that has
    relations, fewer than 64 of them, shows them all, one card each, the
    cards without a birth date after all those with one; and when every
    birth date that is there parses to a valid date, the cards are in
    ascending order of the parsed birth date. *)
Theorem relation_cards_order relations relationType :
  relations <> [] -> (List.length relations < 64)%nat ->
  exists cards,
    displayRelationSection Date_parse relations relationType = Cards cards /\
    Permutation relations cards /\
    StronglySorted undated_last cards /\
    (Forall (parses Date_parse) relations ->
     StronglySorted (ascending Date_parse) cards).
Proof.
  intros Hne _. exists (JsArray.sort cmp relations). split.
  - destruct relations; [contradiction | reflexivity].
  - split; [apply JsArrayFacts.sort_perm|].
    split; [apply sort_undated_last | apply sort_ascending].
Qed.
End Cards.

Lemma relation_cards_order_witness :
  [charles; person "Q5" 1 None; george; margaret] <> [] /\
  (List.length [charles; person "Q5" 1 None; george; margaret] < 64)%nat /\
  exists cards,
    displayRelationSection Dates.year_only_parse
      [charles; person "Q5" 1 None; george; margaret] "child" = Cards cards /\
    StronglySorted undated_last cards.
Proof.
  assert (Hne : [charles; person "Q5" 1 None; george; margaret] <> [])
    by discriminate.
  assert (Hlen : (List.length [charles; person "Q5" 1 None; george; margaret] < 64)%nat)
    by (simpl; lia).
  split; [exact Hne|]. split; [exact Hlen|].
  destruct (relation_cards_order Dates.year_only_parse _ "child" Hne Hlen)
    as [cards [Hcards [_ [Hlast _]]]].
  exists cards. split; assumption.
Defined.

(** C10 at a section with a birth date the engine cannot parse, the
    year-only form Wikidata gives.  The comparator answers [NaN] for that
    card against each dated neighbour, the sort moves nothing, and the card
    of 1900 stays ahead of the card of 1800: the cards are not in ascending
    order of parsed birth date. *)
Lemma unparsed_date_breaks_order :
  let relations := [ person "Q10" 1 (Some "1900");
                     person "Q11" 1 (Some "+1936-00-00T00:00:00Z");
                     person "Q12" 1 (Some "1800") ] in
  displayRelationSection Dates.year_only_parse relations "child" = Cards relations /\
  ~ StronglySorted (ascending Dates.year_only_parse) relations.
Proof.
  split; [reflexivity|].
  intros Hs. inversion Hs as [|? ? _ Hall]; subst.
  inversion Hall as [|? ? _ Hall']; subst.
  inversion Hall' as [|? ? Hac _]; subst.
  specialize (Hac _ _ eq_refl eq_refl). vm_compute in Hac. now apply Hac.
Qed.

End RelationsFacts.

(** ** Links, ticks and hovering *)

Module VisualizationFacts.
Import Flat Visualization.

Lemma traverse_total {A B : Type} (f : A -> option B) (l : list A) :
  Forall (fun a => f a <> None) l ->
  exists bs, traverse f l = Some bs /\ Forall2 (fun a b => f a = Some b) l bs.
Proof.
  induction 1 as [|a l Ha _ [bs [IH1 IH2]]]; simpl.
  - exists []. split; [reflexivity | constructor].
  - destruct (f a) as [b|] eqn:E; [|contradiction].
    rewrite IH1. exists (b :: bs). split; [reflexivity | now constructor].
Qed.

Lemma traverse_stuck {A B : Type} (f : A -> option B) (l : list A) a :
  In a l -> f a = None -> traverse f l = None.
Proof.
  induction l as [|a' l IH]; simpl; [tauto|].
  intros [->|Hin] Hf; [now rewrite Hf|].
  destruct (f a'); [|reflexivity]. now rewrite IH.
Qed.

(** [find_index] and [find] look at the same node. *)
Lemma find_index_find i ns :
  match find_index i ns with
  | Some k => nth_error ns k = find_by_id i ns /\ find_by_id i ns <> None
  | None => find_by_id i ns = None
  end.
Proof.
  unfold find_by_id. induction ns as [|n ns IH]; simpl; [reflexivity|].
  destruct (String.eqb (id n) i); simpl; [split; [reflexivity | discriminate]|].
  destruct (find_index i ns); simpl; exact IH.
Qed.

(** The link array of the visualization has one entry per link of the
    payload, in order, whether or not its ends were found. *)
Lemma resolve_links_keeps_all data :
  map type (resolve_links data) = map Flat.type (links data) /\
  List.length (resolve_links data) = List.length (links data).
Proof.
  unfold resolve_links. rewrite map_map, length_map. split; reflexivity.
Qed.

(** Each link of the payload becomes one link of the visualization, of
    the same type, whose ends are what [nodes.find] returns for the two
    ids: the node object, or [undefined]. *)
Lemma resolve_links_ends data :
  Forall2 (fun link vl =>
             type vl = Flat.type link /\
             match source vl with
             | Some k => nth_error (nodes data) k
             | None => None
             end = find_by_id (Flat.source link) (nodes data) /\
             match target vl with
             | Some k => nth_error (nodes data) k
             | None => None
             end = find_by_id (Flat.target link) (nodes data))
    (links data) (resolve_links data).
Proof.
  unfold resolve_links. induction (links data) as [|link ls IH]; constructor; [|exact IH].
  simpl. split; [reflexivity|].
  pose proof (find_index_find (Flat.source link) (nodes data)) as Hs.
  pose proof (find_index_find (Flat.target link) (nodes data)) as Ht.
  destruct (find_index (Flat.source link) (nodes data));
    destruct (find_index (Flat.target link) (nodes data));
    intuition congruence.
Qed.

Lemma line_of_resolved ds l : resolved ds l -> line_of ds l <> None.
Proof.
  unfold resolved, line_of. intros [Hs Ht].
  destruct (deref ds (source l)); [|contradiction].
  destruct (deref ds (target l)); [discriminate | contradiction].
Qed.

Lemma clamp_bounds extent v :
  40 <= extent -> 20 <= clamp extent v /\ clamp extent v <= extent - 20.
Proof.
  intros He. unfold clamp.
  destruct (Q.max_spec 20 (Qmin (extent - 20) v)) as [[H1 H2]|[H1 H2]];
    destruct (Q.min_spec (extent - 20) v) as [[H3 H4]|[H3 H4]];
    rewrite H2; rewrite ?H4 in *; split; lra.
Qed.

(** Whatever the surface, a clamped coordinate is not below the margin. *)
Lemma clamp_lower extent v : 20 <= clamp extent v.
Proof. unfold clamp. apply Q.le_max_l. Qed.

(** C7, as the code has it.  On a surface at least 40 wide and 40 high,
    and with every link resolved, a call of [ticked] of
    [visualization.js] draws every circle, and leaves every node, with
    [x] in [20, width - 20] and [y] in [20, height - 20]; the labels are
    drawn at the same positions. *)
Theorem ticked_clamps width height ls ds :
  40 <= width -> 40 <= height -> Forall (resolved ds) ls ->
  exists frame,
    ticked width height ls ds = Some frame /\
    Forall (inside width height) (circles frame) /\
    circles frame = map (fun d => (x d, y d)) (data_after frame) /\
    labels frame = circles frame /\
    List.length (circles frame) = List.length ds.
Proof.
  intros Hw Hh Hres. unfold ticked.
  destruct (traverse_total (line_of ds) ls) as [drawn [-> _]].
  { eapply Forall_impl; [|exact Hres]. apply line_of_resolved. }
  eexists; split; [reflexivity|]. simpl.
  split; [|split; [reflexivity|split; [reflexivity|now rewrite !length_map]]].
  rewrite map_map. apply Forall_forall. intros pos Hpos.
  apply in_map_iff in Hpos as [d [<- _]]. unfold inside; simpl.
  destruct (clamp_bounds width (x d) Hw), (clamp_bounds height (y d) Hh).
  repeat split; assumption.
Qed.

Lemma ticked_clamps_witness :
  40 <= 800 /\ 40 <= 600 /\
  exists frame,
    ticked 800 600 (resolve_links windsor_graph)
      (placed (fun n => if (depth n =? 0)%Z then (-1000, 5000) else (300, 250))
         windsor_graph) = Some frame /\
    Forall (inside 800 600) (circles frame).
Proof.
  assert (Hw : 40 <= 800) by (unfold Qle; simpl; lia).
  assert (Hh : 40 <= 600) by (unfold Qle; simpl; lia).
  split; [exact Hw|]. split; [exact Hh|].
  destruct (ticked_clamps 800 600 (resolve_links windsor_graph)
              (placed (fun n => if (depth n =? 0)%Z then (-1000, 5000) else (300, 250))
                 windsor_graph) Hw Hh) as [frame [Hf [Hin _]]].
  - repeat constructor; discriminate.
  - exists frame. split; assumption.
Defined.

(** C7 as worded fails twice.  On a surface narrower than twice the
    margin (here one not laid out yet, of width and height 0) [ticked]
    draws the node at 20, beyond [width - 20]; and [ticked] of the network
    variant draws the positions as the simulation left them. *)
Lemma positions_outside_the_margin :
  let d := {| node := elizabeth; x := 7; y := 7 |} in
  let far := {| node := elizabeth; x := -5; y := 700 |} in
  (exists frame,
     ticked 0 0 [] [d] = Some frame /\ circles frame = [(20, 20)] /\
     ~ inside 0 0 (20, 20)) /\
  (ticked_network [] [far] =
     Some {| n_lines := []; n_translate := [(-5, 700)] |} /\
   ~ inside 600 400 (-5, 700)).
Proof.
  split.
  - eexists. split; [reflexivity|]. split; [reflexivity|].
    unfold inside; simpl. intros (_ & H & _). revert H. unfold Qle; simpl; lia.
  - split; [reflexivity|].
    unfold inside; simpl. intros (H & _). revert H. unfold Qle; simpl; lia.
Qed.

Lemma hover_opacity_resolved ds d l :
  resolved ds l ->
  exists o,
    hover_opacity ds d l = Some o /\
    (o = 1 <-> touches ds l d) /\ (~ touches ds l d -> o < 1).
Proof.
  unfold resolved, hover_opacity, touches. intros [Hs Ht].
  destruct (deref ds (source l)) as [s|]; [|contradiction].
  destruct (deref ds (target l)) as [t|]; [|contradiction].
  destruct (String.eqb_spec (id (node s)) (id d)) as [Es|Es].
  { exists 1. split; [reflexivity|]. split; [|intros H; elim H; eauto].
    split; eauto. }
  destruct (String.eqb_spec (id (node t)) (id d)) as [Et|Et].
  { exists 1. split; [reflexivity|]. split; [|intros H; elim H; eauto].
    split; eauto. }
  exists (2 # 10). split; [reflexivity|]. split; [|reflexivity].
  split; [discriminate|].
  intros [[s' [Hs' Hid]]|[t' [Ht' Hid]]].
  - inversion Hs'; subst; contradiction.
  - inversion Ht'; subst; contradiction.
Qed.

Lemma unique_id_same_node (ns : list GraphNode) a b :
  NoDup (map id ns) -> In a ns -> In b ns -> id a = id b -> a = b.
Proof.
  induction ns as [|n ns IH]; simpl; [tauto|].
  intros Hnd Ha Hb Hid. inversion Hnd as [|? ? Hnot Hnd']; subst.
  destruct Ha as [<-|Ha], Hb as [<-|Hb]; auto.
  - exfalso; apply Hnot. rewrite Hid. now apply in_map.
  - exfalso; apply Hnot. rewrite <- Hid. now apply in_map.
Qed.

Lemma deref_placed place data e s :
  deref (placed place data) e = Some s -> In (node s) (nodes data).
Proof.
  destruct e as [k|]; simpl; [|discriminate]. intros H.
  apply nth_error_In in H. unfold placed in H.
  apply in_map_iff in H as [n [<- Hn]]. exact Hn.
Qed.

(** When no two nodes share an id, an end with the id of [d] is [d]
    itself. *)
Lemma touches_unique_ids place data l d :
  NoDup (map id (nodes data)) -> In d (nodes data) ->
  touches (placed place data) l d <->
  (exists s, deref (placed place data) (source l) = Some s /\ node s = d) \/
  (exists t, deref (placed place data) (target l) = Some t /\ node t = d).
Proof.
  intros Hnd Hd. unfold touches. split.
  - intros [[s [Hs Hid]]|[t [Ht Hid]]]; [left; exists s | right; exists t];
      (split; [assumption|]);
      eapply unique_id_same_node; eauto using deref_placed.
  - intros [[s [Hs <-]]|[t [Ht <-]]]; [left; exists s | right; exists t]; auto.
Qed.

(** C8.  With every link resolved, hovering [d] gives each line an
    opacity: it is 1 exactly when [d] is an end of the link, and below 1
    for every link [d] is not an end of; leaving the node sets every
    opacity to 1. *)
Theorem hover_highlights ds ls d :
  Forall (resolved ds) ls ->
  exists opacities,
    mouseover ds ls d = Some opacities /\
    Forall2 (fun l o => (o = 1 <-> touches ds l d) /\ (~ touches ds l d -> o < 1))
      ls opacities /\
    mouseout ls = map (fun _ => 1) ls /\
    Forall (fun o => o = 1) (mouseout ls).
Proof.
  intros Hres. unfold mouseover.
  assert (Hsome : Forall (fun l => hover_opacity ds d l <> None) ls).
  { eapply Forall_impl; [|exact Hres]. intros l Hl.
    destruct (hover_opacity_resolved ds d l Hl) as [o [-> _]]. discriminate. }
  destruct (traverse_total _ _ Hsome) as [ops [-> Hops]].
  exists ops. split; [reflexivity|]. split; [|split; [reflexivity|]].
  - clear Hsome. induction Hops as [|l o ls ops Hlo _ IH]; [constructor|].
    inversion Hres as [|? ? Hl Hres']; subst. constructor; [|now apply IH].
    destruct (hover_opacity_resolved ds d l Hl) as [o' [Ho' Hspec]].
    rewrite Hlo in Ho'. inversion Ho'; subst. exact Hspec.
  - unfold mouseout. apply Forall_forall. intros o Ho.
    apply in_map_iff in Ho as [l [<- _]]. reflexivity.
Qed.

Lemma hover_highlights_witness :
  Forall (resolved (placed (fun _ => (100, 100)) windsor_graph))
    (resolve_links windsor_graph) /\
  exists opacities,
    mouseover (placed (fun _ => (100, 100)) windsor_graph)
      (resolve_links windsor_graph) george = Some opacities /\
    Forall (fun o => o = 1) (mouseout (resolve_links windsor_graph)).
Proof.
  assert (Hres : Forall (resolved (placed (fun _ => (100, 100)) windsor_graph))
                   (resolve_links windsor_graph))
    by (repeat constructor; discriminate).
  split; [exact Hres|].
  destruct (hover_highlights _ _ george Hres) as [ops [Hops [_ [_ Hout]]]].
  exists ops. split; assumption.
Defined.

(** C4 at a payload with a link to a node that is not there.  The link
    array of the visualization keeps the link, its target [undefined], and
    a tick that reaches it reads [d.target.x] and throws; only the grouping
    pass of [displayFamilyRelations] leaves the link out. *)
Theorem dangling_link_not_dropped :
  resolve_links dangling_graph =
    [ {| source := Some O; target := None; type := "parent" |} ] /\
  (forall width height place,
     ticked width height (resolve_links dangling_graph)
       (placed place dangling_graph) = None) /\
  Relations.group_relations dangling_graph = Some Relations.no_relations.
Proof.
  split; [reflexivity|]. split; [|reflexivity].
  intros width height place. unfold ticked.
  rewrite (traverse_stuck _ _ {| source := Some O; target := None; type := "parent" |});
    [reflexivity | now left | reflexivity].
Qed.

End VisualizationFacts.

(** ** Date formatting *)

Module DatesFacts.
Import Dates.

Lemma four_digits_length s y : four_digits s = Some y -> String.length y = 4%nat.
Proof.
  destruct s as [|a [|b [|c [|d s]]]]; simpl; try discriminate.
  destruct (_ && _); [|discriminate]. now intros [= <-].
Qed.

Lemma match_here_length s y : match_here s = Some y -> String.length y = 4%nat.
Proof.
  unfold match_here. destruct s as [|c s]; [discriminate|].
  destruct (is_sign c); [destruct (four_digits s) eqn:E|].
  - intros [= <-]. eauto using four_digits_length.
  - apply four_digits_length.
  - apply four_digits_length.
Qed.

(** What the pattern extracts is a group of four characters. *)
Lemma yearMatch_length s y : yearMatch s = Some y -> String.length y = 4%nat.
Proof.
  induction s as [|c s IH]; [discriminate|].
  cbn [yearMatch]. destruct (match_here (String c s)) eqn:E; [|exact IH].
  intros [= <-]. eauto using match_here_length.
Qed.

Section Engine.
Variable Date_parse : string -> option Z.
Variable getFullYear : Z -> Z.
Variable toLocaleDateString : Z -> string.

End Engine.



End DatesFacts.

(** ** The search form *)

Module SearchFacts.
Import Search.

Lemma trimEnd_empty s : trimEnd s = "" <-> blank s = true.
Proof.
  induction s as [|c s IH]; simpl; [tauto|].
  destruct (trimEnd s) eqn:E.
  - destruct (is_white_space c); simpl.
    + split; [intros _; now apply IH | reflexivity].
    + split; discriminate.
  - split; [discriminate|]. intros H.
    apply andb_true_iff in H as [_ H]. apply IH in H. discriminate.
Qed.

Lemma blank_trimStart s : blank (trimStart s) = blank s.
Proof.
  induction s as [|c s IH]; simpl; [reflexivity|].
  destruct (is_white_space c) eqn:E; simpl; [exact IH | now rewrite E].
Qed.

(** The trimmed value is empty exactly for a value of white space only. *)
Lemma trim_empty s : trim s = "" <-> blank s = true.
Proof. unfold trim. now rewrite trimEnd_empty, blank_trimStart. Qed.

Section Browser.
Variable encodeURIComponent : string -> string.
Variable search_page : string.

(** C9.  A submitted value that trims to the empty string makes either
    submit handler cancel the default action and do nothing else: no
    [fetch] is issued, and the search state is left as it was. *)
Theorem blank_query_never_fetches value st :
  trim value = "" ->
  submit encodeURIComponent value st = (st, [PreventDefault]) /\
  submit_template encodeURIComponent search_page value = [PreventDefault] /\
  filter is_fetch (snd (submit encodeURIComponent value st)) = [] /\
  filter is_fetch (submit_template encodeURIComponent search_page value) = [].
Proof.
  intros Hblank. unfold submit, submit_template. rewrite Hblank. simpl.
  repeat split; reflexivity.
Qed.

(** A value with anything else in it issues the one request, for page 1. *)
Lemma query_fetches_once value st :
  trim value <> "" ->
  filter is_fetch (snd (submit encodeURIComponent value st))
    = [Fetch (apiUrl encodeURIComponent (trim value) 1)] /\
  filter is_fetch (submit_template encodeURIComponent search_page value)
    = [Fetch (apiUrl encodeURIComponent (trim value) 1)].
Proof.
  intros Hq. unfold submit, submit_template.
  destruct (String.eqb_spec (trim value) ""); [contradiction|].
  split; reflexivity.
Qed.
End Browser.

Lemma blank_query_never_fetches_witness :
  trim "   " = "" /\
  filter is_fetch
    (snd (submit (fun s => s) "   " {| currentQuery := "Windsor"; currentPage := 2 |}))
  = [].
Proof.
  assert (Hblank : trim "   " = "") by reflexivity.
  split; [exact Hblank|].
  exact (proj1 (proj2 (proj2 (blank_query_never_fetches (fun s => s) "/search" "   "
                                {| currentQuery := "Windsor"; currentPage := 2 |}
                                Hblank)))).
Defined.

End SearchFacts.

(** ** Pagination *)

Module PaginationFacts.
Import Pagination.

Lemma in_pages_from_to first last i :
  In i (pages_from_to first last) <-> (first <= i <= last)%Z.
Proof.
  unfold pages_from_to. rewrite in_map_iff. split.
  - intros [k [<- Hk]]. apply in_seq in Hk. lia.
  - intros Hi. exists (Z.to_nat (i - first)). split; [lia|].
    apply in_seq. lia.
Qed.

Lemma length_pages_from_to first last :
  List.length (pages_from_to first last) = Z.to_nat (last - first + 1).
Proof. unfold pages_from_to. now rewrite length_map, length_seq. Qed.

Lemma pages_from_to_increasing first last :
  StronglySorted Z.lt (pages_from_to first last).
Proof.
  unfold pages_from_to. generalize (Z.to_nat (last - first + 1)) as n.
  generalize 0%nat as a. intros a n. revert a.
  induction n as [|n IH]; intros a; simpl; constructor; [apply IH|].
  apply Forall_forall. intros z Hz.
  apply in_map_iff in Hz as [k [<- Hk]]. apply in_seq in Hk. lia.
Qed.

Lemma increasing_app (l1 l2 : list Z) :
  StronglySorted Z.lt l1 -> StronglySorted Z.lt l2 ->
  (forall a b, In a l1 -> In b l2 -> (a < b)%Z) ->
  StronglySorted Z.lt (l1 ++ l2).
Proof.
  induction 1 as [|a l1 Hs IH Ha]; simpl; intros H2 Hlt; [assumption|].
  constructor.
  - apply IH; [assumption|]. intros; apply Hlt; [now right | assumption].
  - apply Forall_app. split; [assumption|].
    apply Forall_forall. intros b Hb. apply Hlt; [now left | assumption].
Qed.

Lemma numbers_page_items currentPage l :
  numbers (map (page_item currentPage) l) = l.
Proof. unfold numbers. induction l; simpl; congruence. Qed.

Lemma targets_page_items currentPage l :
  targets (map (page_item currentPage) l)
  = filter (fun i => negb (i =? currentPage)%Z) l.
Proof.
  unfold targets. induction l as [|i l IH]; simpl; [reflexivity|].
  rewrite IH. now destruct (i =? currentPage)%Z.
Qed.

(** The window of the search script: it holds the current page, stays
    within the pages there are, and is five pages wide whenever there are
    five pages. *)
Lemma window_bounds currentPage totalPages :
  (1 <= currentPage <= totalPages)%Z ->
  let '(startPage, endPage) := window currentPage totalPages in
  (1 <= startPage <= currentPage)%Z /\ (currentPage <= endPage <= totalPages)%Z /\
  (endPage - startPage + 1 = Z.min 5 totalPages)%Z.
Proof.
  intros Hc. unfold window, maxVisiblePages.
  change (5 / 2)%Z with 2%Z.
  destruct (Z.ltb_spec (Z.min totalPages (Z.max 1 (currentPage - 2) + 5 - 1)
                        - Z.max 1 (currentPage - 2) + 1) 5); lia.
Qed.

(** The page numbers shown, whatever the items between them. *)
Lemma numbers_createPagination currentPage totalPages :
  (1 < totalPages)%Z ->
  numbers (createPagination currentPage totalPages) =
  let '(startPage, endPage) := window currentPage totalPages in
  (if (1 <? startPage)%Z then [1%Z] else [])
    ++ pages_from_to startPage endPage
    ++ (if (endPage <? totalPages)%Z then [totalPages] else []).
Proof.
  intros Ht. unfold createPagination.
  destruct (Z.leb_spec totalPages 1); [lia|].
  destruct (window currentPage totalPages) as [s e].
  unfold numbers. rewrite !flat_map_app. fold (numbers (map (page_item currentPage) (pages_from_to s e))).
  rewrite numbers_page_items. simpl.
  destruct (1 <? s)%Z, (2 <? s)%Z, (e <? totalPages)%Z, (e <? totalPages - 1)%Z;
    simpl; rewrite ?app_nil_r; reflexivity.
Qed.

(** X1.  With more than one page and the current page among them, the
    pagination of the search script shows page numbers in strictly
    increasing order, the first page and the last page always among them,
    the current page among them, and never more than seven of them. *)
Theorem pagination_numbers currentPage totalPages :
  (1 < totalPages)%Z -> (1 <= currentPage <= totalPages)%Z ->
  let shown := numbers (createPagination currentPage totalPages) in
  StronglySorted Z.lt shown /\
  hd_error shown = Some 1%Z /\
  last shown 0%Z = totalPages /\
  In currentPage shown /\
  (List.length shown <= 7)%nat.
Proof.
  intros Ht Hc shown. subst shown. rewrite numbers_createPagination by assumption.
  pose proof (window_bounds currentPage totalPages Hc) as Hw.
  destruct (window currentPage totalPages) as [s e].
  destruct Hw as (Hs & He & Hsize).
  assert (Hnonempty : pages_from_to s e <> []).
  { intros E. pose proof (proj2 (in_pages_from_to s e currentPage)) as Hin.
    rewrite E in Hin. apply Hin. lia. }
  repeat split.
  - apply increasing_app.
    + destruct (1 <? s)%Z; repeat constructor.
    + apply increasing_app.
      * apply pages_from_to_increasing.
      * destruct (e <? totalPages)%Z; repeat constructor.
      * intros a b Ha Hb. apply in_pages_from_to in Ha.
        destruct (Z.ltb_spec e totalPages); [|contradiction].
        destruct Hb as [<-|[]]. lia.
    + intros a b Ha Hb.
      destruct (Z.ltb_spec 1 s); [|contradiction]. destruct Ha as [<-|[]].
      apply in_app_or in Hb as [Hb|Hb].
      * apply in_pages_from_to in Hb. lia.
      * destruct (Z.ltb_spec e totalPages); [|contradiction].
        destruct Hb as [<-|[]]. lia.
  - destruct (Z.ltb_spec 1 s); [reflexivity|]. simpl.
    assert (s = 1%Z) by lia. subst s.
    unfold pages_from_to in *.
    destruct (Z.to_nat (e - 1 + 1)) eqn:E; [lia | reflexivity].
  - destruct (Z.ltb_spec e totalPages).
    + rewrite app_assoc. apply last_last.
    + rewrite app_nil_r. assert (e = totalPages) by lia. subst e.
      assert (Hl : last (pages_from_to s totalPages) 0%Z = totalPages).
      { unfold pages_from_to.
        replace (Z.to_nat (totalPages - s + 1)) with (S (Z.to_nat (totalPages - s))) by lia.
        rewrite seq_S, map_app. simpl. rewrite last_last. lia. }
      destruct (1 <? s)%Z; simpl; [|exact Hl].
      destruct (pages_from_to s totalPages) eqn:E; [contradiction | exact Hl].
  - apply in_or_app; right. apply in_or_app; left. apply in_pages_from_to. lia.
  - rewrite !length_app, length_pages_from_to.
    destruct (1 <? s)%Z, (e <? totalPages)%Z; simpl; lia.
Qed.

Lemma pagination_numbers_witness :
  (1 < 20)%Z /\ (1 <= 10 <= 20)%Z /\
  numbers (createPagination 10 20) = [1; 8; 9; 10; 11; 12; 20]%Z /\
  StronglySorted Z.lt (numbers (createPagination 10 20)).
Proof.
  assert (Ht : (1 < 20)%Z) by lia.
  assert (Hc : (1 <= 10 <= 20)%Z) by lia.
  split; [exact Ht|]. split; [exact Hc|]. split; [reflexivity|].
  exact (proj1 (pagination_numbers 10 20 Ht Hc)).
Defined.

(** X2.  The window of page numbers around the current page holds the
    current page, lies within the pages there are, and is exactly five
    pages wide, or as wide as all the pages when there are fewer than
    five: near the last page it is moved back rather than cut short. *)
Theorem window_five_wide currentPage totalPages startPage endPage :
  (1 <= currentPage <= totalPages)%Z ->
  window currentPage totalPages = (startPage, endPage) ->
  (1 <= startPage <= currentPage)%Z /\ (currentPage <= endPage <= totalPages)%Z /\
  List.length (pages_from_to startPage endPage) = Z.to_nat (Z.min 5 totalPages).
Proof.
  intros Hc Hw. pose proof (window_bounds currentPage totalPages Hc) as H.
  rewrite Hw in H. destruct H as (Hs & He & Hsize).
  rewrite length_pages_from_to, Hsize. auto.
Qed.

Lemma window_five_wide_witness :
  (1 <= 20 <= 20)%Z /\ window 20 20 = (16, 20)%Z /\
  List.length (pages_from_to 16 20) = 5%nat.
Proof.
  assert (Hc : (1 <= 20 <= 20)%Z) by lia.
  assert (Hw : window 20 20 = (16, 20)%Z) by reflexivity.
  split; [exact Hc|]. split; [exact Hw|].
  exact (proj2 (proj2 (window_five_wide 20 20 16 20 Hc Hw))).
Defined.

(** X3.  With the current page among the pages, every listener of the
    pagination asks for a page that exists and is not the current one; a
    numbered item other than the current page asks for its own number, and
    the item of the current page is the active one and has no listener. *)
Theorem pagination_targets currentPage totalPages it :
  (1 <= currentPage <= totalPages)%Z ->
  In it (createPagination currentPage totalPages) ->
  (forall t, target it = Some t -> (1 <= t <= totalPages)%Z /\ t <> currentPage) /\
  (forall i, label it = LNumber i ->
     (i = currentPage -> class it = Active /\ target it = None) /\
     (i <> currentPage -> class it = Plain /\ target it = Some i)).
Proof.
  intros Hc Hin. unfold createPagination in Hin.
  destruct (Z.leb_spec totalPages 1); [contradiction|].
  pose proof (window_bounds currentPage totalPages Hc) as Hw.
  destruct (window currentPage totalPages) as [s e].
  destruct Hw as (Hs & He & _).
  repeat (apply in_app_or in Hin as [Hin|Hin]).
  - destruct Hin as [<-|[]]; simpl. split; [|discriminate].
    intros t. destruct (Z.ltb_spec 1 currentPage); intros [= <-]. lia.
  - destruct (Z.ltb_spec 1 s); [|contradiction].
    destruct Hin as [<-|Hin]; simpl.
    + split; [intros t [= <-]; lia|].
      intros i [= <-]. split; [lia | auto].
    + destruct (2 <? s)%Z; [|contradiction].
      destruct Hin as [<-|[]]; simpl. split; discriminate.
  - apply in_map_iff in Hin as [i [<- Hi]]. apply in_pages_from_to in Hi.
    unfold page_item; simpl. destruct (Z.eqb_spec i currentPage).
    + split; [discriminate|]. intros j [= <-]. split; [auto | contradiction].
    + split; [intros t [= <-]; lia|].
      intros j [= <-]. split; [contradiction | auto].
  - destruct (Z.ltb_spec e totalPages); [|contradiction].
    apply in_app_or in Hin as [Hin|Hin].
    + destruct (e <? totalPages - 1)%Z; [|contradiction].
      destruct Hin as [<-|[]]; simpl. split; discriminate.
    + destruct Hin as [<-|[]]; simpl.
      split; [intros t [= <-]; lia|].
      intros i [= <-]. split; [lia | auto].
  - destruct Hin as [<-|[]]; simpl. split; [|discriminate].
    intros t. destruct (Z.ltb_spec currentPage totalPages); intros [= <-]. lia.
Qed.

Lemma pagination_targets_witness :
  (1 <= 3 <= 7)%Z /\
  In {| label := LNumber 7; class := Plain; target := Some 7%Z |}
     (createPagination 3 7) /\
  (1 <= 7 <= 7)%Z /\ 7%Z <> 3%Z.
Proof.
  assert (Hc : (1 <= 3 <= 7)%Z) by lia.
  assert (Hin : In {| label := LNumber 7; class := Plain; target := Some 7%Z |}
                   (createPagination 3 7))
    by (simpl; do 7 right; left; reflexivity).
  split; [exact Hc|]. split; [exact Hin|].
  exact (proj1 (pagination_targets 3 7 _ Hc Hin) 7%Z eq_refl).
Defined.

Section Browser.
Variable encodeURIComponent : string -> string.

(** X4.  The older pagination shows the pages from two before the current
    one, at most five of them and the current page among them, and no page
    beyond the last; on the last page of three or more it shows only the
    last three, the window not being moved back. *)
Theorem pagination_old_numbers currentPage totalPages query :
  (1 <= currentPage <= totalPages)%Z ->
  let shown :=
    numbers_old (createPagination_old encodeURIComponent currentPage totalPages query) in
  shown = pages_from_to (Z.max 1 (currentPage - 2))
            (Z.min totalPages (Z.max 1 (currentPage - 2) + 4)) /\
  In currentPage shown /\
  (List.length shown <= 5)%nat /\
  Forall (fun i => (1 <= i <= totalPages)%Z) shown /\
  (currentPage = totalPages -> (3 <= totalPages)%Z ->
   shown = [totalPages - 2; totalPages - 1; totalPages]%Z).
Proof.
  intros Hc shown.
  assert (Hshown : shown = pages_from_to (Z.max 1 (currentPage - 2))
                             (Z.min totalPages (Z.max 1 (currentPage - 2) + 4))).
  { subst shown. unfold createPagination_old, window_old, numbers_old.
    rewrite !flat_map_app. simpl.
    destruct (1 <? currentPage)%Z, (currentPage <? totalPages)%Z; simpl;
      rewrite app_nil_r;
      (induction (pages_from_to _ _) as [|i l IH]; simpl; [reflexivity|];
       rewrite IH; now destruct (i =? currentPage)%Z). }
  split; [exact Hshown|]. rewrite Hshown. repeat split.
  - apply in_pages_from_to. lia.
  - rewrite length_pages_from_to. lia.
  - apply Forall_forall. intros i Hi. apply in_pages_from_to in Hi. lia.
  - intros -> H3.
    replace (Z.max 1 (totalPages - 2)) with (totalPages - 2)%Z by lia.
    replace (Z.min totalPages (totalPages - 2 + 4)) with totalPages by lia.
    unfold pages_from_to.
    replace (Z.to_nat (totalPages - (totalPages - 2) + 1)) with 3%nat by lia.
    simpl. f_equal; [lia|]. f_equal; [lia|]. f_equal; lia.
Qed.
End Browser.

Lemma pagination_old_numbers_witness :
  (1 <= 20 <= 20)%Z /\
  numbers_old (createPagination_old (fun s => s) 20 20 "windsor") = [18; 19; 20]%Z.
Proof.
  assert (Hc : (1 <= 20 <= 20)%Z) by lia.
  split; [exact Hc|].
  exact (proj2 (proj2 (proj2 (proj2
           (pagination_old_numbers (fun s => s) 20 20 "windsor" Hc)))) eq_refl
           ltac:(lia)).
Defined.

End PaginationFacts.

(** ** A search, from the request to the page *)

Module SearchResultsFacts.
Import SearchResults.

Lemma ceil_div_le_1 t : (ceil_div t resultsPerPage <= 1)%Z <-> (t <= 10)%Z.
Proof.
  unfold ceil_div, resultsPerPage.
  pose proof (Z.div_mod (- t) 10 ltac:(lia)).
  pose proof (Z.mod_pos_bound (- t) 10 ltac:(lia)). lia.
Qed.

Lemma createPagination_empty currentPage totalPages :
  Pagination.createPagination currentPage totalPages = [] <-> (totalPages <= 1)%Z.
Proof.
  unfold Pagination.createPagination.
  destruct (Z.leb_spec totalPages 1); [tauto|].
  destruct (Pagination.window currentPage totalPages).
  split; [discriminate | lia].
Qed.

(** X5.  Whatever the page showed before and however the request ends,
    when [performSearch] is through the loading indicator is hidden and
    exactly one of the three panels is shown: the error message after a
    failure, the no-results message after a body without results, the
    results after a body with results.  In the last case there is one card
    per result, the state holds the page and the total of the body (1 and 0
    when they are missing or zero), and the pagination is rendered exactly
    when the total exceeds the ten results of a page. *)
Theorem performSearch_panels st v o :
  let st' := fst (performSearch st v o) in
  let v' := snd (performSearch st v o) in
  loadingShown v' = false /\
  match o with
  | Failed message =>
      st' = st /\
      errorShown v' = Some ("Error searching: " ++ message)%string /\
      resultsShown v' = false /\ noResultsShown v' = false
  | Succeeded data =>
      currentPage st' = or_number (page data) 1 /\
      totalResults st' = or_number (total data) 0 /\
      errorShown v' = None /\
      match results data with
      | None | Some [] =>
          noResultsShown v' = true /\ resultsShown v' = false /\ cards v' = []
      | Some hits =>
          resultsShown v' = true /\ noResultsShown v' = false /\
          cards v' = hits /\
          heading v' = (currentQuery st, totalResults st') /\
          (pagination v' = [] <-> (totalResults st' <= 10)%Z)
      end
  end.
Proof.
  destruct o as [message|data]; simpl.
  - repeat split; reflexivity.
  - unfold displaySearchResults.
    destruct (results data) as [[|h hits]|]; simpl;
      try (repeat split; reflexivity).
    do 8 (split; [reflexivity|]).
    rewrite createPagination_empty. apply ceil_div_le_1.
Qed.

End SearchResultsFacts.

(** ** The list of a relation section *)

Module RelationListFacts.
Import RelationList.

Lemma has_iff_key k (m : JsMap.t bool) : has k m = true <-> In k (JsMap.keys m).
Proof.
  unfold has. induction m as [|[k' v] m IH]; simpl; [split; [discriminate | tauto]|].
  destruct (String.eqb_spec k' k) as [->|Hne]; [tauto|].
  rewrite IH. split; [auto | intros [H|H]; [contradiction | exact H]].
Qed.

Lemma find_snoc {A : Type} (f : A -> bool) (l : list A) (a : A) :
  find f (l ++ [a]) =
  match find f l with
  | Some b => Some b
  | None => if f a then Some a else None
  end.
Proof.
  induction l as [|b l IH]; simpl; [reflexivity|].
  destruct (f b); [reflexivity | exact IH].
Qed.

Section Engine.
Variable escapeHtml : option string -> string.
Variable Date_parse : string -> option Z.
Variable toLocaleDateString : Z -> string.
Variable relationType : string.

Local Abbreviation card := (card_of escapeHtml Date_parse toLocaleDateString relationType).
Local Abbreviation step := (card_step escapeHtml Date_parse toLocaleDateString relationType).

(** What the loop keeps true, element after element. *)
Lemma card_loop_invariant (l : list Person) :
  let st := forEach l step (JsMap.empty, []) in
  JsMap.keys (fst st) = map c_id (snd st) /\
  NoDup (map c_id (snd st)) /\
  (forall c, In c (snd st) ->
     exists p, find (fun q => String.eqb (id q) (c_id c)) l = Some p /\ c = card p) /\
  (forall p, In p l -> In (id p) (map c_id (snd st))).
Proof.
  induction l as [|p l IH] using rev_ind.
  - simpl. repeat split; [constructor | intros c [] | intros p []].
  - unfold forEach in *. rewrite fold_left_app. simpl.
    destruct (fold_left step l (JsMap.empty, [])) as [m html].
    cbn [fst snd] in IH. destruct IH as (Hkeys & Hnd & Hfirst & Hall).
    change (step (m, html) p)
      with (if has (id p) m then (m, html)
            else (JsMap.set (id p) true m, html ++ [card p])).
    destruct (has (id p) m) eqn:Ehas; cbn [fst snd].
    + apply has_iff_key in Ehas. repeat split; try assumption.
      * intros c Hc. destruct (Hfirst c Hc) as [q [Hq ->]].
        exists q. rewrite find_snoc, Hq. auto.
      * intros q Hq. apply in_app_or in Hq as [Hq|[<-|[]]]; [auto|].
        now rewrite <- Hkeys.
    + assert (Hnew : ~ In (id p) (JsMap.keys m)).
      { intros H. apply has_iff_key in H. congruence. }
      rewrite JsMapFacts.keys_set_absent by assumption.
      rewrite map_app; simpl. repeat split.
      * now rewrite Hkeys.
      * apply NoDup_app; [assumption | repeat constructor; simpl; tauto |].
        intros a Ha [<-|[]]. now rewrite <- Hkeys in Ha.
      * intros c Hc. apply in_app_or in Hc as [Hc|[<-|[]]].
        -- destruct (Hfirst c Hc) as [q [Hq ->]].
           exists q. rewrite find_snoc, Hq. auto.
        -- exists p. rewrite find_snoc. simpl.
           destruct (find _ l) as [q|] eqn:Eq.
           ++ exfalso. apply find_some in Eq as [Hq Hid].
              apply String.eqb_eq in Hid. apply Hnew.
              rewrite Hkeys, <- Hid. now apply Hall.
           ++ rewrite String.eqb_refl. auto.
      * intros q Hq. apply in_or_app.
        apply in_app_or in Hq as [Hq|[<-|[]]]; [left; auto | right; now left].
Qed.

(** X6.  A section of the details page script that has relations shows one
    card for each id among them and no second card for an id; the card of
    an id is built from the first person listed with it; and when no two
    persons share an id the cards are those of the persons, in order. *)
Theorem relation_cards_first_wins (l : list Person) :
  l <> [] ->
  exists cards,
    displayRelationSection escapeHtml Date_parse toLocaleDateString (Some l)
      relationType = CardList cards /\
    NoDup (map c_id cards) /\
    (forall p, In p l -> In (id p) (map c_id cards)) /\
    (forall c, In c cards ->
       exists p, find (fun q => String.eqb (id q) (c_id c)) l = Some p /\ c = card p) /\
    (NoDup (map id l) -> cards = map card l).
Proof.
  intros Hne. eexists. split; [destruct l; [contradiction | reflexivity]|].
  destruct (card_loop_invariant l) as (_ & Hnd & Hfirst & Hall).
  split; [exact Hnd|]. split; [exact Hall|]. split; [exact Hfirst|].
  clear Hne Hnd Hfirst Hall. intros Hids.
  induction l as [|p l IH] using rev_ind; [reflexivity|].
  rewrite map_app in Hids. apply NoDup_app_remove_r in Hids as Hl.
  specialize (IH Hl).
  unfold forEach in *. rewrite fold_left_app. simpl.
  destruct (card_loop_invariant l) as (Hkeys & _ & Hfirst & _).
  unfold forEach in *.
  destruct (fold_left step l (JsMap.empty, [])) as [m html].
  cbn [fst snd] in *. subst html.
  change (step (m, map card l) p)
    with (if has (id p) m then (m, map card l)
          else (JsMap.set (id p) true m, map card l ++ [card p])).
  destruct (has (id p) m) eqn:Ehas; cbn [fst snd].
  - exfalso. apply has_iff_key in Ehas. rewrite Hkeys in Ehas.
    apply in_map_iff in Ehas as [c [Hc Hin]].
    destruct (Hfirst c Hin) as [q [Hq _]].
    apply find_some in Hq as [Hq Hid]. apply String.eqb_eq in Hid.
    apply NoDup_remove_2 with (l' := []) in Hids.
    apply Hids. rewrite app_nil_r, <- Hc, <- Hid. now apply in_map.
  - now rewrite map_app.
Qed.
End Engine.

Lemma relation_cards_first_wins_witness :
  let anne := {| id := "Q7"; name := Some "Anne"; image_url := None;
                 birth_date := Some "1950"; death_date := None |} in
  let again := {| id := "Q7"; name := Some "Anne of Kent"; image_url := None;
                  birth_date := None; death_date := None |} in
  [anne; again] <> [] /\
  exists cards,
    displayRelationSection (fun n => match n with Some s => s | None => "" end)
      Dates.year_only_parse (fun t => Dates.Number_toString (Dates.YearFromTime t))
      (Some [anne; again]) "sibling" = CardList cards /\
    NoDup (map c_id cards).
Proof.
  intros anne again.
  assert (Hne : [anne; again] <> []) by discriminate.
  split; [exact Hne|].
  destruct (relation_cards_first_wins
              (fun n => match n with Some s => s | None => "" end)
              Dates.year_only_parse
              (fun t => Dates.Number_toString (Dates.YearFromTime t))
              "sibling" [anne; again] Hne) as [cards [Hcards [Hnd _]]].
  exists cards. split; assumption.
Defined.

End RelationListFacts.

(** ** The relation buckets are made of the payload *)

Module BucketsFacts.
Import Flat Relations.

Local Abbreviation bucketed r :=
  (r_parents r ++ r_children r ++ r_spouses r ++ r_siblings r).

Local Abbreviation touching c :=
  (fun link : RelationEdge =>
     String.eqb (source link) (id c) || String.eqb (target link) (id c)).

Lemma find_by_id_in i ns p : find_by_id i ns = Some p -> In p ns /\ id p = i.
Proof.
  unfold find_by_id. intros H. apply find_some in H as [Hin Hid].
  apply String.eqb_eq in Hid. auto.
Qed.

Lemma classify_link_bounded ns c r link :
  Forall (fun p => In p ns) (bucketed r) ->
  Forall (fun p => In p ns) (bucketed (classify_link ns c r link)) /\
  (List.length (bucketed (classify_link ns c r link))
   <= List.length (bucketed r) + (if touching c link then 1 else 0))%nat.
Proof.
  intros Hr. unfold classify_link.
  destruct (String.eqb (source link) (id c)) eqn:Es;
    destruct (String.eqb (target link) (id c)) eqn:Et; simpl;
    try (split; [assumption | lia]);
    (destruct (find_by_id _ ns) as [p|] eqn:Ef; [|split; [assumption | lia]];
     apply find_by_id_in in Ef as [Hp _];
     repeat match goal with
       | |- context [if ?b then _ else _] => destruct b
       end; simpl;
     rewrite ?Forall_app in *; rewrite ?length_app; simpl;
     (split; [intuition (auto using Forall_cons) | lia])).
Qed.

Lemma forEach_classify_bounded ns c links r :
  Forall (fun p => In p ns) (bucketed r) ->
  Forall (fun p => In p ns) (bucketed (forEach links (classify_link ns c) r)) /\
  (List.length (bucketed (forEach links (classify_link ns c) r))
   <= List.length (bucketed r) + List.length (filter (touching c) links))%nat.
Proof.
  unfold forEach. revert r. induction links as [|l links IH]; intros r Hr; simpl.
  - split; [assumption | lia].
  - destruct (classify_link_bounded ns c r l Hr) as [H1 H2].
    destruct (IH _ H1) as [H3 H4]. split; [assumption|].
    destruct (touching c l); simpl in *; lia.
Qed.

(** X7.  The grouping pass of [displayFamilyRelations] either finds no
    node of depth 0, and then groups nothing, or works from the first node
    of depth 0; every person it puts in a bucket is a node of the payload,
    and the four buckets together hold at most one entry per link that
    touches the central person. *)
Theorem buckets_from_payload fd :
  match group_relations fd with
  | None => Forall (fun n => depth n <> 0%Z) (nodes fd)
  | Some final =>
      exists c,
        centralPerson fd = Some c /\ In c (nodes fd) /\ depth c = 0%Z /\
        Forall (fun p => In p (nodes fd)) (bucketed final) /\
        (List.length (bucketed final)
         <= List.length (filter (touching c) (links fd)))%nat
  end.
Proof.
  unfold group_relations, centralPerson.
  destruct (find _ (nodes fd)) as [c|] eqn:Ec.
  - exists c. apply find_some in Ec as [Hin Hd]. apply Z.eqb_eq in Hd.
    split; [reflexivity|]. split; [assumption|]. split; [assumption|].
    apply (forEach_classify_bounded (nodes fd) c (links fd) no_relations).
    constructor.
  - apply Forall_forall. intros n Hn Hd.
    apply (find_none _ _ Ec) in Hn. apply Z.eqb_neq in Hn. contradiction.
Qed.

Lemma buckets_from_payload_none fd :
  group_relations fd = None -> Forall (fun n => depth n <> 0%Z) (nodes fd).
Proof.
  unfold group_relations, centralPerson.
  destruct (find _ (nodes fd)) eqn:Ec; [discriminate|]. intros _.
  apply Forall_forall. intros n Hn Hd.
  apply (find_none _ _ Ec) in Hn. apply Z.eqb_neq in Hn. contradiction.
Qed.

(** When the grouping is done, a node of depth 0 is there, and the four
    buckets together hold no more entries than the payload has links. *)
Lemma group_relations_some fd relations :
  group_relations fd = Some relations ->
  (exists c, In c (nodes fd) /\ depth c = 0%Z) /\
  (List.length (bucketed relations) <= List.length (links fd))%nat.
Proof.
  unfold group_relations, centralPerson.
  destruct (find _ (nodes fd)) as [c|] eqn:Ec; [|discriminate].
  intros H; inversion H; subst relations; clear H.
  apply find_some in Ec as [Hin Hd]. apply Z.eqb_eq in Hd.
  split; [now exists c|].
  destruct (forEach_classify_bounded (nodes fd) c (links fd) no_relations)
    as [_ Hlen]; [constructor|].
  pose proof (filter_length_le (touching c) (links fd)). simpl in Hlen. lia.
Qed.

End BucketsFacts.

(** ** Dragging *)

Module DragFacts.
Import Drag.

(** X9.  In [visualization.js] the handlers act on the simulation the page
    held when [initializeVisualization] was entered, not on the one it
    creates: a second call binds them to the simulation of the first, and
    on a page load there is none.  Then [dragstarted] and [dragended] throw
    whenever no other gesture is active, before the pin is written, so a
    gesture cannot complete; [dragged] alone still pins the node to the
    pointer. *)
Theorem visualization_drag_unbound created event subject :
  active event = 0%nat ->
  let bound := bound_simulation_visualization None created in
  dragstarted bound event subject = None /\
  dragended bound event subject = None /\
  dragged bound event subject =
    Some (None, {| x := x subject; y := y subject;
                   fx := Some (ex event); fy := Some (ey event) |}) /\
  (forall moves finish, gesture bound event moves finish subject = None) /\
  (forall later,
     bound_simulation_visualization (global_at_exit None created) later
     = Some created).
Proof.
  intros Ha. unfold bound_simulation_visualization, gesture, dragstarted, dragended.
  rewrite Ha. simpl. repeat split.
Qed.

Lemma visualization_drag_unbound_witness :
  dragstarted (bound_simulation_visualization None {| alphaTarget := 0; restarts := 0 |})
    {| active := 0; ex := 10; ey := 10 |}
    {| x := 10; y := 10; fx := None; fy := None |} = None.
Proof.
  exact (proj1 (visualization_drag_unbound {| alphaTarget := 0; restarts := 0 |}
                  {| active := 0; ex := 10; ey := 10 |}
                  {| x := 10; y := 10; fx := None; fy := None |} eq_refl)).
Defined.

End DragFacts.

(** ** Node colours *)

Module StylingFacts.
Import Styling.

(** X10.  In [visualization.js] every node of depth 0 or more gets a
    colour; it is the accent blue exactly for depth 0, whatever the gender;
    and a node three or more steps away whose gender is neither [male] nor
    [female] gets the last colour of the ramp. *)
Theorem getNodeColor_defined node :
  (0 <= depth node)%Z ->
  exists colour,
    getNodeColor node = Some colour /\
    (colour = "#3498DB" <-> depth node = 0%Z) /\
    ((3 <= depth node)%Z ->
     gender node <> Some "male" -> gender node <> Some "female" ->
     colour = "#7F8C8D").
Proof.
  intros Hd. unfold getNodeColor.
  destruct (Z.eqb_spec (depth node) 0) as [E0|E0].
  - exists "#3498DB". split; [reflexivity|]. split; [tauto | lia].
  - assert (Hramp : exists colour,
              at_index depthColors
                (Z.min (depth node) (Z.of_nat (List.length depthColors) - 1))
              = Some colour /\ colour <> "#3498DB" /\
              ((3 <= depth node)%Z -> colour = "#7F8C8D")).
    { simpl List.length.
      assert (Hmin : Z.min (depth node) (Z.of_nat 4 - 1) = 1%Z
                     \/ Z.min (depth node) (Z.of_nat 4 - 1) = 2%Z
                     \/ Z.min (depth node) (Z.of_nat 4 - 1) = 3%Z) by lia.
      destruct Hmin as [H|[H|H]]; rewrite H; eexists;
        (split; [reflexivity|]); (split; [discriminate|]); intros; try reflexivity; lia. }
    destruct Hramp as [ramp [Hramp [Hblue Hlast]]].
    destruct (gender node) as [g|] eqn:Eg.
    + destruct (String.eqb_spec g ""); [exists ramp; rewrite Hramp; intuition|].
      destruct (String.eqb_spec g "male") as [->|].
      { exists "#7FB3D5". split; [reflexivity|].
        split; [split; [discriminate | contradiction] | intros _ H; now elim H]. }
      destruct (String.eqb_spec g "female") as [->|].
      { exists "#F5B7B1". split; [reflexivity|].
        split; [split; [discriminate | contradiction] | intros _ _ H; now elim H]. }
      exists ramp. rewrite Hramp. intuition.
    + exists ramp. rewrite Hramp. intuition.
Qed.

Lemma getNodeColor_defined_witness :
  (0 <= 7)%Z /\
  getNodeColor {| depth := 7; gender := Some "other" |} = Some "#7F8C8D".
Proof.
  assert (Hd : (0 <= depth {| depth := 7; gender := Some "other" |})%Z)
    by (simpl; lia).
  split; [exact Hd|].
  destruct (getNodeColor_defined {| depth := 7; gender := Some "other" |} Hd)
    as [colour [Hc [_ Hlast]]].
  rewrite Hc. f_equal. apply Hlast; simpl; [lia | discriminate | discriminate].
Defined.

Lemma uniqueNodes_subset ns n :
  In n (GraphBuilder.uniqueNodes ns) -> In n ns.
Proof.
  intros H. apply GraphBuilderFacts.uniqueNodes_last in H.
  apply find_some in H as [H _]. now apply in_rev.
Qed.

(** X11.  Every node the grouped builder hands to the network variant is
    typed [self], [parent], [child], [spouse] or [sibling]; so each gets
    one of the five role colours, never the grey of an unknown type, and
    the blue goes to the nodes typed [self] only. *)
Theorem network_nodes_coloured entityId personName fd n :
  In n (GraphBuilder.nodes (GraphBuilder.networkData entityId personName fd)) ->
  In (GraphBuilder.type n) ["self"; "parent"; "child"; "spouse"; "sibling"] /\
  getNodeColor_network n <> "#95a5a6" /\
  (getNodeColor_network n = "#3498db" <-> GraphBuilder.type n = "self").
Proof.
  intros Hin. simpl in Hin. apply uniqueNodes_subset in Hin.
  rewrite (proj1 (GraphBuilderFacts.collect_closed entityId personName fd)) in Hin.
  assert (Ht : In (GraphBuilder.type n)
                 ["self"; "parent"; "child"; "spouse"; "sibling"]).
  { destruct Hin as [<-|Hin]; [simpl; auto|].
    repeat (apply in_app_or in Hin as [Hin|Hin]);
      apply in_map_iff in Hin as [p [<- _]]; simpl; auto 6. }
  split; [exact Ht|]. unfold getNodeColor_network.
  simpl in Ht. destruct Ht as [<-|[<-|[<-|[<-|[<-|[]]]]]]; simpl;
    (split; [discriminate|]); split; (reflexivity || discriminate).
Qed.

Lemma network_nodes_coloured_witness :
  let n := {| GraphBuilder.id := "Q3"; GraphBuilder.name := "Margaret";
              GraphBuilder.type := "sibling" |} in
  In n (GraphBuilder.nodes
          (GraphBuilder.networkData "Q9682" "Elizabeth II" GraphBuilder.windsor)) /\
  getNodeColor_network n <> "#95a5a6".
Proof.
  intros n.
  assert (Hin : In n (GraphBuilder.nodes
                        (GraphBuilder.networkData "Q9682" "Elizabeth II"
                           GraphBuilder.windsor)))
    by (simpl; do 3 right; left; reflexivity).
  split; [exact Hin|].
  exact (proj1 (proj2 (network_nodes_coloured "Q9682" "Elizabeth II"
                         GraphBuilder.windsor n Hin))).
Defined.

End StylingFacts.

(** ** The years under a name *)

Module LifespanFacts.
Import Lifespan.

Lemma length_append (a b : string) :
  String.length (a ++ b) = (String.length a + String.length b)%nat.
Proof. induction a as [|c a IH]; simpl; congruence. Qed.

Lemma Number_toString_not_empty z : Dates.Number_toString z <> "".
Proof.
  unfold Dates.Number_toString, NilZero.string_of_int.
  destruct (Z.to_int z) as [d|d]; [|discriminate].
  unfold NilZero.string_of_uint. destruct d; discriminate.
Qed.

Section Engine.
Variable Date_parse : string -> option Z.
Variable getFullYear : Z -> Z.

Lemma year_text_not_empty s : year_text Date_parse getFullYear s <> "".
Proof.
  unfold year_text. destruct (Date_parse s);
    [apply Number_toString_not_empty | discriminate].
Qed.

Lemma lifespan_bare birth death :
  lifespan Date_parse getFullYear birth death = " - " <->
  Flat.truthy birth = false /\ Flat.truthy death = false.
Proof.
  unfold lifespan. split.
  - intros H. apply (f_equal String.length) in H.
    rewrite !length_append in H. simpl in H.
    destruct (Flat.truthy birth), (Flat.truthy death); auto; exfalso.
    + pose proof (year_text_not_empty (Relations.field birth)).
      destruct (year_text _ _ (Relations.field birth)); [contradiction | simpl in H; lia].
    + pose proof (year_text_not_empty (Relations.field birth)).
      destruct (year_text _ _ (Relations.field birth)); [contradiction | simpl in H; lia].
    + pose proof (year_text_not_empty (Relations.field death)).
      destruct (year_text _ _ (Relations.field death)); [contradiction | simpl in H; lia].
  - intros [-> ->]. reflexivity.
Qed.

(** X12.  A relation card has its line of years left out exactly when the
    relation has neither a birth date nor a death date, and the line under
    the person's name is empty in the same case; a date that is there but
    does not parse is written as [NaN]. *)
Theorem lifespan_shown relation :
  (lifespan_paragraph Date_parse getFullYear relation = None <->
   Flat.truthy (Flat.birth_date relation) = false /\
   Flat.truthy (Flat.death_date relation) = false) /\
  (personDates Date_parse getFullYear
     (Flat.birth_date relation) (Flat.death_date relation) = "" <->
   Flat.truthy (Flat.birth_date relation) = false /\
   Flat.truthy (Flat.death_date relation) = false) /\
  (forall s, Flat.birth_date relation = Some s -> s <> "" -> Date_parse s = None ->
     exists rest,
       lifespan_paragraph Date_parse getFullYear relation
       = Some ("NaN - " ++ rest)%string).
Proof.
  unfold lifespan_paragraph, personDates.
  pose proof (lifespan_bare (Flat.birth_date relation) (Flat.death_date relation)) as Hb.
  destruct (String.eqb_spec
              (lifespan Date_parse getFullYear (Flat.birth_date relation)
                 (Flat.death_date relation)) " - ") as [E|E].
  - split; [tauto|]. split; [tauto|].
    intros s Hs Hne _. apply Hb in E as [E _]. rewrite Hs in E. simpl in E.
    destruct (String.eqb_spec s ""); [contradiction | discriminate].
  - split; [split; [discriminate | intros H; apply Hb in H; contradiction]|].
    split.
    + split; [|intros H; apply Hb in H; contradiction].
      intros H. exfalso. apply (f_equal String.length) in H.
      unfold lifespan in H. rewrite !length_append in H. simpl in H. lia.
    + intros s Hs Hne Hp. unfold lifespan. rewrite Hs. simpl.
      destruct (String.eqb_spec s ""); [contradiction|]. simpl.
      unfold year_text. rewrite Hp. eexists. reflexivity.
Qed.
End Engine.

Lemma lifespan_shown_witness :
  let r := Flat.person "Q11" 1 (Some "+1936-00-00T00:00:00Z") in
  Flat.birth_date r = Some "+1936-00-00T00:00:00Z" /\
  "+1936-00-00T00:00:00Z" <> "" /\
  Dates.year_only_parse "+1936-00-00T00:00:00Z" = None /\
  exists rest,
    lifespan_paragraph Dates.year_only_parse Dates.YearFromTime r
    = Some ("NaN - " ++ rest)%string.
Proof.
  intros r.
  assert (Hs : Flat.birth_date r = Some "+1936-00-00T00:00:00Z") by reflexivity.
  assert (Hne : "+1936-00-00T00:00:00Z" <> "") by discriminate.
  assert (Hp : Dates.year_only_parse "+1936-00-00T00:00:00Z" = None) by reflexivity.
  split; [exact Hs|]. split; [exact Hne|]. split; [exact Hp|].
  exact (proj2 (proj2 (lifespan_shown Dates.year_only_parse Dates.YearFromTime r))
           _ Hs Hne Hp).
Defined.

End LifespanFacts.

(** ** The year the network variant extracts *)

Module YearFacts.
Import Dates.

Local Abbreviation digits y :=
  (forallb is_digit (list_ascii_of_string y) = true).

Lemma four_digits_sound s y :
  four_digits s = Some y ->
  exists post, s = (y ++ post)%string /\ String.length y = 4%nat /\ digits y.
Proof.
  destruct s as [|a [|b [|c [|d s]]]]; simpl; try discriminate.
  destruct (is_digit a) eqn:Ea, (is_digit b) eqn:Eb,
           (is_digit c) eqn:Ec, (is_digit d) eqn:Ed; simpl; try discriminate.
  intros [= <-]. exists s. simpl. rewrite Ea, Eb, Ec, Ed. auto.
Qed.

Lemma four_digits_complete y post :
  String.length y = 4%nat -> digits y -> four_digits (y ++ post) = Some y.
Proof.
  destruct y as [|a [|b [|c [|d [|e y]]]]]; simpl; try discriminate.
  intros _ H. rewrite !andb_true_iff in H. destruct H as (-> & -> & -> & -> & _).
  reflexivity.
Qed.

Lemma match_here_sound s y :
  match_here s = Some y ->
  exists pre post, s = (pre ++ y ++ post)%string /\ String.length y = 4%nat /\ digits y.
Proof.
  unfold match_here. destruct s as [|c s]; [discriminate|].
  destruct (is_sign c).
  - destruct (four_digits s) as [y'|] eqn:E.
    + intros [= <-]. apply four_digits_sound in E as [post [-> H]].
      exists (String c ""), post. auto.
    + intros H. apply four_digits_sound in H as [post [-> H]].
      exists "", post. auto.
  - intros H. apply four_digits_sound in H as [post [-> H]].
    exists "", post. auto.
Qed.

Lemma match_here_none s : match_here s = None -> four_digits s = None.
Proof.
  unfold match_here. destruct s as [|c s]; [reflexivity|].
  destruct (is_sign c); [|auto]. destruct (four_digits s); [discriminate | auto].
Qed.

Lemma yearMatch_none s :
  yearMatch s = None ->
  forall pre rest, s = (pre ++ rest)%string -> four_digits rest = None.
Proof.
  induction s as [|c s IH].
  - intros _ [|? ?] rest; simpl; [intros <-; reflexivity | discriminate].
  - cbn [yearMatch]. destruct (match_here (String c s)) eqn:E; [discriminate|].
    intros Hs [|c' pre] rest; simpl.
    + intros <-. now apply match_here_none.
    + intros [= <- ->]. now apply (IH Hs pre).
Qed.

(** The pattern finds four digits whenever the string has four digits in a
    row, and what it captures is such a run of the string. *)
Lemma yearMatch_spec s :
  match yearMatch s with
  | Some y =>
      exists pre post,
        s = (pre ++ y ++ post)%string /\ String.length y = 4%nat /\ digits y
  | None =>
      forall pre y post,
        s = (pre ++ y ++ post)%string -> String.length y = 4%nat -> ~ digits y
  end.
Proof.
  destruct (yearMatch s) as [y|] eqn:E.
  - revert E. induction s as [|c s IH]; [discriminate|].
    cbn [yearMatch]. destruct (match_here (String c s)) eqn:Eh.
    + intros [= <-]. now apply match_here_sound.
    + intros H. destruct (IH H) as [pre [post [-> Hy]]].
      exists (String c pre), post. auto.
  - intros pre y post Hs Hlen Hd.
    pose proof (yearMatch_none s E pre (y ++ post)%string Hs) as Hnone.
    rewrite four_digits_complete in Hnone by assumption. discriminate.
Qed.

Section Engine.
Variable Date_parse : string -> option Z.
Variable getFullYear : Z -> Z.

(** X13.  For a non-empty string that does not parse, [formatDate] of the
    network variant gives four decimal digits that stand in a row in the
    string, and it gives the empty string only when the string has no four
    digits in a row. *)
Theorem formatDate_network_year s :
  s <> "" -> Date_parse s = None ->
  let shown := formatDate_network Date_parse getFullYear (Some s) in
  (shown = "" /\
   forall pre y post,
     s = (pre ++ y ++ post)%string -> String.length y = 4%nat -> ~ digits y) \/
  (exists pre post,
     s = (pre ++ shown ++ post)%string /\ String.length shown = 4%nat /\ digits shown).
Proof.
  intros Hne Hp. simpl. destruct (String.eqb_spec s ""); [contradiction|].
  rewrite Hp. pose proof (yearMatch_spec s) as H.
  destruct (yearMatch s) as [y|]; [right | left]; auto.
Qed.
End Engine.

Lemma formatDate_network_year_witness :
  "+1936-00-00T00:00:00Z" <> "" /\ year_only_parse "+1936-00-00T00:00:00Z" = None /\
  formatDate_network year_only_parse YearFromTime (Some "+1936-00-00T00:00:00Z") = "1936".
Proof.
  assert (Hne : "+1936-00-00T00:00:00Z" <> "") by discriminate.
  assert (Hp : year_only_parse "+1936-00-00T00:00:00Z" = None) by reflexivity.
  split; [exact Hne|]. split; [exact Hp|].
  destruct (formatDate_network_year year_only_parse YearFromTime _ Hne Hp)
    as [[_ Hnone]|_]; [|reflexivity].
  exfalso. apply (Hnone "+" "1936" "-00-00T00:00:00Z"); reflexivity.
Defined.

End YearFacts.

(** ** A tick on nodes that are already in place *)

Module TickFacts.
Import Flat Visualization.

Lemma clamp_fixed extent v :
  20 <= v -> v <= extent - 20 -> clamp extent v == v.
Proof.
  intros H1 H2. unfold clamp.
  destruct (Q.max_spec 20 (Qmin (extent - 20) v)) as [[H3 H4]|[H3 H4]];
    destruct (Q.min_spec (extent - 20) v) as [[H5 H6]|[H5 H6]];
    rewrite H4; rewrite ?H6 in *; lra.
Qed.

Lemma clamp_idempotent extent v :
  clamp extent (clamp extent v) == clamp extent v.
Proof.
  destruct (Qlt_le_dec extent 40) as [Hnarrow|Hwide].
  - assert (H20 : forall w, clamp extent w == 20).
    { intros w. unfold clamp.
      destruct (Q.max_spec 20 (Qmin (extent - 20) w)) as [[H3 H4]|[H3 H4]];
        destruct (Q.min_spec (extent - 20) w) as [[H5 H6]|[H5 H6]];
        rewrite H4; rewrite ?H6 in *; lra. }
    now rewrite !H20.
  - destruct (VisualizationFacts.clamp_bounds extent v Hwide).
    now apply clamp_fixed.
Qed.

Lemma resolved_after_clamp width height ds l :
  resolved ds l -> resolved (map (clamp_datum width height) ds) l.
Proof.
  unfold resolved, deref. intros [Hs Ht].
  destruct (source l) as [i|], (target l) as [j|]; try contradiction.
  rewrite !nth_error_map.
  destruct (nth_error ds i), (nth_error ds j); try contradiction.
  split; discriminate.
Qed.

(** X14.  With every link resolved, a tick leaves the nodes where a second
    tick draws them again: clamping a clamped position changes nothing.
    And a node that is inside the margin when the tick begins is drawn
    where it is. *)
Theorem ticked_settles width height ls ds :
  Forall (resolved ds) ls ->
  exists frame again,
    ticked width height ls ds = Some frame /\
    ticked width height ls (data_after frame) = Some again /\
    Forall2 (fun p q => fst p == fst q /\ snd p == snd q)
      (circles frame) (circles again) /\
    Forall2 (fun d p =>
               inside width height (x d, y d) -> fst p == x d /\ snd p == y d)
      ds (circles frame).
Proof.
  intros Hres. unfold ticked.
  destruct (VisualizationFacts.traverse_total (line_of ds) ls) as [drawn [-> _]].
  { eapply Forall_impl; [|exact Hres]. apply VisualizationFacts.line_of_resolved. }
  destruct (VisualizationFacts.traverse_total
              (line_of (map (clamp_datum width height) ds)) ls) as [drawn' [Hd' _]].
  { eapply Forall_impl; [|exact Hres]. intros l Hl.
    apply VisualizationFacts.line_of_resolved. now apply resolved_after_clamp. }
  do 2 eexists. split; [reflexivity|]. simpl. rewrite Hd'.
  split; [reflexivity|]. simpl. split.
  - clear. induction ds as [|d ds IH]; simpl; constructor; [|exact IH].
    simpl. split; symmetry; apply clamp_idempotent.
  - clear. induction ds as [|d ds IH]; simpl; constructor; [|exact IH].
    unfold inside; simpl. intros (H1 & H2 & H3 & H4).
    split; now apply clamp_fixed.
Qed.

Lemma ticked_settles_witness :
  Forall (resolved (placed (fun _ => (100, 100)) windsor_graph))
    (resolve_links windsor_graph) /\
  exists frame,
    ticked 800 600 (resolve_links windsor_graph)
      (placed (fun _ => (100, 100)) windsor_graph) = Some frame /\
    List.length (circles frame) = 5%nat.
Proof.
  assert (Hres : Forall (resolved (placed (fun _ => (100, 100)) windsor_graph))
                   (resolve_links windsor_graph))
    by (repeat constructor; discriminate).
  split; [exact Hres|].
  destruct (ticked_settles 800 600 _ _ Hres) as [frame [again [Hf [_ [_ Hin]]]]].
  exists frame. split; [exact Hf|].
  apply Forall2_length in Hin. now rewrite <- Hin.
Defined.

End TickFacts.

(** ** A query that is sent *)

Module SubmitFacts.
Import Search.

Lemma trimStart_head s c r : trimStart s = String c r -> is_white_space c = false.
Proof.
  induction s as [|c' s IH]; simpl; [discriminate|].
  destruct (is_white_space c') eqn:E; [exact IH|]. now intros [= <- _].
Qed.

Lemma trimEnd_head t c r :
  trimEnd t = String c r -> exists r', t = String c r'.
Proof.
  destruct t as [|c' t]; simpl; [discriminate|].
  destruct (trimEnd t); [destruct (is_white_space c'); [discriminate|]|];
    intros [= <- _]; eauto.
Qed.

Lemma trimEnd_last t r c :
  trimEnd t = (r ++ String c "")%string -> is_white_space c = false.
Proof.
  revert r. induction t as [|c' t IH]; intros r; simpl.
  - destruct r; discriminate.
  - destruct (trimEnd t) as [|k kept] eqn:E.
    + destruct (is_white_space c') eqn:Ews; [destruct r; discriminate|].
      destruct r as [|a [|b r]]; simpl; try discriminate. now intros [= <-].
    + destruct r as [|a r]; simpl; [discriminate|].
      intros [= _ H]. now apply (IH r).
Qed.

Section Browser.
Variable encodeURIComponent : string -> string.
Variable search_page : string.

(** X15.  A submitted value with anything but white space in it makes
    either handler issue exactly one search request, for page 1 of the
    trimmed value; the query sent neither begins nor ends with white
    space.  The search script records the query and page 1 and pushes the
    history entry after the request; the template pushes it before. *)
Theorem nonblank_query_fetches_trimmed value st :
  blank value = false ->
  let query := trim value in
  submit encodeURIComponent value st =
    ({| currentQuery := query; currentPage := 1 |},
     [PreventDefault; PreparePage; Fetch (apiUrl encodeURIComponent query 1);
      PushQueryParam query]) /\
  submit_template encodeURIComponent search_page value =
    [PreventDefault;
     PushState (search_page ++ "?query=" ++ encodeURIComponent query)%string;
     PreparePage; Fetch (apiUrl encodeURIComponent query 1)] /\
  (forall c r, query = String c r -> is_white_space c = false) /\
  (forall r c, query = (r ++ String c "")%string -> is_white_space c = false).
Proof.
  intros Hb query.
  assert (Hq : query <> "").
  { intros H. apply SearchFacts.trim_empty in H. congruence. }
  unfold submit, submit_template. fold query.
  destruct (String.eqb_spec query ""); [contradiction|]. simpl.
  split; [reflexivity|]. split; [reflexivity|]. split.
  - intros c r H. unfold query, trim in H.
    destruct (trimEnd_head _ _ _ H) as [r' Hr']. now apply trimStart_head in Hr'.
  - intros r c H. unfold query, trim in H. now apply trimEnd_last in H.
Qed.
End Browser.

Lemma nonblank_query_fetches_trimmed_witness :
  blank "  Elizabeth II " = false /\
  submit_template (fun s => s) "/search" "  Elizabeth II " =
    [PreventDefault; PushState "/search?query=Elizabeth II";
     PreparePage; Fetch "/api/search?query=Elizabeth II&page=1"].
Proof.
  assert (Hb : blank "  Elizabeth II " = false) by reflexivity.
  split; [exact Hb|].
  exact (proj1 (proj2 (nonblank_query_fetches_trimmed (fun s => s) "/search"
                         "  Elizabeth II "
                         {| currentQuery := ""; currentPage := 1 |} Hb))).
Defined.

End SubmitFacts.

(** ** The network of the grouped builder is closed *)

Module NetworkFacts.
Import GraphBuilder.

Lemma length_sibling_links entityId ps s :
  List.length (sibling_links entityId ps s) = Nat.max 1 (List.length ps).
Proof.
  rewrite GraphBuilderFacts.sibling_links_closed.
  destruct ps; simpl; [reflexivity|]. now rewrite length_map.
Qed.

Lemma length_flat_map_const {A B : Type} (f : A -> list B) (l : list A) k :
  (forall a, List.length (f a) = k) ->
  List.length (flat_map f l) = (List.length l * k)%nat.
Proof.
  intros Hk. induction l as [|a l IH]; simpl; [reflexivity|].
  now rewrite length_app, Hk, IH.
Qed.

Lemma in_sibling_links l entityId ps s :
  In l (sibling_links entityId ps s) ->
  (ps = [] /\ l = direct_sibling_link entityId s) \/
  (exists p, In p ps /\ l = shared_parent_link s p).
Proof.
  rewrite GraphBuilderFacts.sibling_links_closed. destruct ps as [|q qs].
  - intros [<-|[]]. left; auto.
  - intros H. apply in_map_iff in H as [p [<- Hp]]. right; eauto.
Qed.

(** X16.  The network the grouped builder hands to the visualization has
    no dangling link: both ends of every link are ids of nodes that are
    still there after the deduplication. *)
Theorem network_links_resolve entityId personName fd l :
  In l (links (networkData entityId personName fd)) ->
  In (source l) (map id (nodes (networkData entityId personName fd))) /\
  In (target l) (map id (nodes (networkData entityId personName fd))).
Proof.
  intros Hl. simpl in *.
  rewrite !GraphBuilderFacts.uniqueNodes_same_ids.
  destruct (GraphBuilderFacts.collect_closed entityId personName fd) as [Hn Hlinks].
  rewrite Hn. rewrite Hlinks in Hl. simpl.
  rewrite !map_app, !map_map. simpl.
  assert (Hids : forall (kind : string) (ps : list PersonRef) p,
             In p ps -> In (p_id p) (map (fun x => p_id x) ps))
    by (intros _ ps p Hp; now apply (in_map p_id)).
  repeat (apply in_app_or in Hl as [Hl|Hl]).
  - apply in_map_iff in Hl as [p [<- Hp]]. simpl. split; [right|left; reflexivity].
    apply in_or_app; left. now apply (Hids "parent").
  - apply in_map_iff in Hl as [p [<- Hp]]. simpl. split; [left; reflexivity|right].
    apply in_or_app; right. apply in_or_app; left. now apply (Hids "child").
  - apply in_map_iff in Hl as [p [<- Hp]]. simpl. split; [left; reflexivity|right].
    do 2 (apply in_or_app; right). apply in_or_app; left. now apply (Hids "spouse").
  - apply in_flat_map in Hl as [s [Hs Hl]].
    assert (Hsib : In (p_id s)
                     (map (fun x => p_id x) (parents fd)
                      ++ map (fun x => p_id x) (children fd)
                      ++ map (fun x => p_id x) (spouses fd)
                      ++ map (fun x => p_id x) (siblings fd))).
    { do 3 (apply in_or_app; right). now apply (Hids "sibling"). }
    apply in_sibling_links in Hl as [[_ ->]|[p [Hp ->]]]; simpl.
    + split; [left; reflexivity | right; exact Hsib].
    + split; [right | right; exact Hsib].
      apply in_or_app; left. now apply (Hids "parent").
Qed.

Lemma network_links_resolve_witness :
  In {| source := "Q1"; target := "Q3"; ltype := "parent" |}
     (links (networkData "Q9682" "Elizabeth II" windsor)) /\
  In "Q3" (map id (nodes (networkData "Q9682" "Elizabeth II" windsor))).
Proof.
  assert (Hl : In {| source := "Q1"; target := "Q3"; ltype := "parent" |}
                  (links (networkData "Q9682" "Elizabeth II" windsor)))
    by (simpl; do 2 right; left; reflexivity).
  split; [exact Hl|].
  exact (proj2 (network_links_resolve "Q9682" "Elizabeth II" windsor _ Hl)).
Defined.

(** X17.  The builder makes one link per parent, child and spouse, and
    for each sibling one link per parent, or one link when there is no
    parent: with [N] parents, [M] children, [P] spouses and [S] siblings
    the network has [N + M + P + S * max(1, N)] links. *)
Theorem network_link_count entityId personName fd :
  List.length (links (networkData entityId personName fd)) =
  (List.length (parents fd) + List.length (children fd) + List.length (spouses fd)
   + List.length (siblings fd) * Nat.max 1 (List.length (parents fd)))%nat.
Proof.
  unfold networkData. cbn [links].
  rewrite (proj2 (GraphBuilderFacts.collect_closed entityId personName fd)).
  rewrite !length_app, !length_map.
  rewrite (length_flat_map_const _ _ (Nat.max 1 (List.length (parents fd))))
    by (intros s; apply length_sibling_links).
  lia.
Qed.

End NetworkFacts.

(** ** The four sections of the details page *)

Module SectionsFacts.
Import Flat Relations.

Section Engine.
Variable Date_parse : string -> option Z.

(** What a section shows of its bucket: the empty state of its type, or
    one card per entry, undated last, ascending when every date parses. *)
Local Abbreviation shows bucket relationType container :=
  (match bucket%list with
   | [] => container = empty_state relationType
   | _ =>
       exists cards,
         container = Cards cards /\
         Permutation bucket cards /\
         StronglySorted undated_last cards /\
         (Forall (parses Date_parse) bucket ->
          StronglySorted (ascending Date_parse) cards)
   end).

Lemma section_shows bucket relationType :
  shows bucket relationType (displayRelationSection Date_parse bucket relationType).
Proof.
  destruct bucket as [|r bucket]; [reflexivity|].
  exists (JsArray.sort (by_birth_date Date_parse) (r :: bucket)).
  split; [reflexivity|]. split; [apply JsArrayFacts.sort_perm|].
  split; [apply RelationsFacts.sort_undated_last | apply RelationsFacts.sort_ascending].
Qed.

(** X18.  On a payload of fewer than 64 links, so that no section has 64
    relations to sort, [displayFamilyRelations] leaves the page alone
    exactly when no node of the payload has depth 0: it returns without a
    page only then, and a page comes with a node of depth 0.  On that page
    each of the four sections shows its bucket: the empty state worded for
    its relation type when the bucket is empty, and else one card for every
    entry of the bucket, none lost and none added by the sort, the cards
    without a birth date last, and in ascending order of birth date when
    every birth date of the bucket parses. *)
Theorem displayFamilyRelations_sections fd :
  (List.length (links fd) < 64)%nat ->
  match displayFamilyRelations Date_parse fd with
  | None => Forall (fun n => depth n <> 0%Z) (nodes fd)
  | Some page =>
      (exists c, In c (nodes fd) /\ depth c = 0%Z) /\
      exists relations,
        group_relations fd = Some relations /\
        (List.length (r_parents relations) < 64)%nat /\
        (List.length (r_children relations) < 64)%nat /\
        (List.length (r_spouses relations) < 64)%nat /\
        (List.length (r_siblings relations) < 64)%nat /\
        shows (r_parents relations) "parent" (parentsContainer page) /\
        shows (r_children relations) "child" (childrenContainer page) /\
        shows (r_spouses relations) "spouse" (spousesContainer page) /\
        shows (r_siblings relations) "sibling" (siblingsContainer page)
  end.
Proof.
  intros Hlinks. unfold displayFamilyRelations.
  pose proof (BucketsFacts.buckets_from_payload_none fd) as Hnone.
  pose proof (BucketsFacts.group_relations_some fd) as Hsome.
  destruct (group_relations fd) as [relations|]; [|now apply Hnone].
  destruct (Hsome relations eq_refl) as [Hc Hlen].
  rewrite !length_app in Hlen.
  split; [exact Hc|]. exists relations. split; [reflexivity|].
  do 4 (split; [lia|]). cbn [parentsContainer childrenContainer
                              spousesContainer siblingsContainer].
  repeat split; apply section_shows.
Qed.
End Engine.

Lemma displayFamilyRelations_sections_witness :
  (List.length (links windsor_graph) < 64)%nat /\
  exists page,
    displayFamilyRelations Dates.year_only_parse windsor_graph = Some page /\
    exists c, In c (nodes windsor_graph) /\ depth c = 0%Z.
Proof.
  assert (Hlinks : (List.length (links windsor_graph) < 64)%nat) by (simpl; lia).
  split; [exact Hlinks|].
  pose proof (displayFamilyRelations_sections Dates.year_only_parse windsor_graph Hlinks)
    as H.
  destruct (displayFamilyRelations Dates.year_only_parse windsor_graph) as [page|] eqn:E;
    [|discriminate E].
  exists page. split; [reflexivity | exact (proj1 H)].
Defined.

End SectionsFacts.

(** ** Payloads without a dangling link *)

Module ClosedPayloadFacts.
Import Flat Visualization.

Lemma deref_found place data i :
  deref (placed place data) (find_index i (nodes data)) <> None <->
  find_by_id i (nodes data) <> None.
Proof.
  pose proof (VisualizationFacts.find_index_find i (nodes data)) as H.
  unfold deref, placed. destruct (find_index i (nodes data)) as [k|].
  - destruct H as [Hk Hfound]. rewrite nth_error_map, Hk.
    destruct (find_by_id i (nodes data)); simpl; split; congruence.
  - rewrite H. tauto.
Qed.

Lemma resolved_iff_found place data link :
  resolved (placed place data)
    {| source := find_index (Flat.source link) (nodes data);
       target := find_index (Flat.target link) (nodes data);
       type := Flat.type link |} <->
  find_by_id (Flat.source link) (nodes data) <> None /\
  find_by_id (Flat.target link) (nodes data) <> None.
Proof. unfold resolved. simpl. now rewrite !deref_found. Qed.

(** X19.  Wherever the simulation has put the nodes, a tick and a hover
    both run through when every link of the payload names two nodes of the
    payload, the tick drawing one line per link; and a tick throws as soon
    as one link names a node that is not there. *)
Theorem ticks_iff_payload_closed data place width height :
  (Forall (fun link =>
             find_by_id (Flat.source link) (nodes data) <> None /\
             find_by_id (Flat.target link) (nodes data) <> None) (links data) ->
   (exists frame,
      ticked width height (resolve_links data) (placed place data) = Some frame /\
      List.length (lines frame) = List.length (links data)) /\
   (forall d, mouseover (placed place data) (resolve_links data) d <> None)) /\
  (forall link, In link (links data) ->
     find_by_id (Flat.source link) (nodes data) = None \/
     find_by_id (Flat.target link) (nodes data) = None ->
     ticked width height (resolve_links data) (placed place data) = None).
Proof.
  split.
  - intros Hclosed.
    assert (Hres : Forall (resolved (placed place data)) (resolve_links data)).
    { unfold resolve_links. apply Forall_forall. intros vl Hvl.
      apply in_map_iff in Hvl as [link [<- Hlink]].
      apply resolved_iff_found. rewrite Forall_forall in Hclosed. auto. }
    split.
    + unfold ticked.
      destruct (VisualizationFacts.traverse_total
                  (line_of (placed place data)) (resolve_links data))
        as [drawn [-> Hdrawn]].
      { eapply Forall_impl; [|exact Hres]. apply VisualizationFacts.line_of_resolved. }
      eexists. split; [reflexivity|]. simpl.
      apply Forall2_length in Hdrawn. rewrite <- Hdrawn.
      apply (proj2 (VisualizationFacts.resolve_links_keeps_all data)).
    + intros d. unfold mouseover.
      destruct (VisualizationFacts.traverse_total
                  (hover_opacity (placed place data) d) (resolve_links data))
        as [ops [-> _]]; [|discriminate].
      eapply Forall_impl; [|exact Hres]. intros l Hl.
      destruct (VisualizationFacts.hover_opacity_resolved _ d l Hl) as [o [-> _]].
      discriminate.
  - intros link Hin Hdangling. unfold ticked.
    rewrite (VisualizationFacts.traverse_stuck _ _
               {| source := find_index (Flat.source link) (nodes data);
                  target := find_index (Flat.target link) (nodes data);
                  type := Flat.type link |}); [reflexivity | |].
    + unfold resolve_links. apply in_map_iff. eauto.
    + unfold line_of. simpl.
      pose proof (deref_found place data (Flat.source link)) as Hs.
      pose proof (deref_found place data (Flat.target link)) as Ht.
      destruct (deref (placed place data) (find_index (Flat.source link) (nodes data)));
        [|reflexivity].
      destruct (deref (placed place data) (find_index (Flat.target link) (nodes data)));
        [|reflexivity].
      exfalso. destruct Hdangling as [H|H];
        [apply (proj1 Hs) | apply (proj1 Ht)]; (discriminate || exact H).
Qed.

Lemma ticks_iff_payload_closed_witness :
  Forall (fun link =>
            find_by_id (Flat.source link) (nodes windsor_graph) <> None /\
            find_by_id (Flat.target link) (nodes windsor_graph) <> None)
    (links windsor_graph) /\
  exists frame,
    ticked 800 600 (resolve_links windsor_graph)
      (placed (fun _ => (100, 100)) windsor_graph) = Some frame /\
    List.length (lines frame) = 5%nat.
Proof.
  assert (Hclosed : Forall (fun link =>
              find_by_id (Flat.source link) (nodes windsor_graph) <> None /\
              find_by_id (Flat.target link) (nodes windsor_graph) <> None)
            (links windsor_graph))
    by (repeat constructor; discriminate).
  split; [exact Hclosed|].
  exact (proj1 (proj1 (ticks_iff_payload_closed windsor_graph
                         (fun _ => (100, 100)) 800 600) Hclosed)).
Defined.

End ClosedPayloadFacts.
